(** * Dragonfly supernode: the dfget task manager

    A shallow embedding of [supernode/daemon/mgr/dfgettask/manager.go].

    The manager keeps two maps: [dfgetTaskStore], from the composite key
    [cID@taskID] to a pointer to a [DfGetTask], and [ptoc], from the
    composite key [peerID@taskID] to the client identity.  Records are Go
    pointers ([*types.DfGetTask]): the store holds the very object the
    caller passed to [Add], and [UpdateStatus] writes through that pointer.
    The embedding therefore has an explicit heap of records, and the store
    holds locations of that heap. *)

From stdpp Require Import gmap strings list fin_maps.
From Stdlib Require Import ZArith.

(** ** Errors ([pkg/errortypes], [github.com/pkg/errors]) *)

(** Modelled from the spec: package [errortypes] is absent; these are the
    three error kinds the spec names ([EmptyValue], [NotFound],
    [ConversionFailure]). *)
Inductive errortype :=
  | ErrEmptyValue
  | ErrDataNotFound
  | ErrConvertFailed.

(** [errors.Wrapf(cause, msg)]: an error kind together with its message. *)
Record error := Wrapf { cause : errortype; message : string }.

(** A Go result [(T, error)]; a plain [error] result is [result unit]. *)
Inductive result (A : Type) :=
  | Ok (a : A)
  | Err (e : error).
Arguments Ok {A} a.
Arguments Err {A} e.

#[global] Instance errortype_eq_dec : EqDecision errortype.
Proof. solve_decision. Defined.

Definition failsWith {A} (r : result A) (k : errortype) : Prop :=
  match r with
  | Ok _ => False
  | Err e => cause e = k
  end.

(** ** Strings ([pkg/stringutils], Go's [strings]) *)

(** Modelled from the spec: [stringutils.IsEmptyStr] is absent; the spec
    speaks of an empty identifier. *)
Definition IsEmptyStr (s : string) : bool := String.eqb s "".

(** [strings.HasPrefix]: [len(s) >= len(prefix) && s[:len(prefix)] == prefix]. *)
Definition HasPrefix (s prefix : string) : bool :=
  (String.length prefix <=? String.length s)%nat
  && String.eqb (String.substring 0 (String.length prefix) s) prefix.

(** [strings.HasSuffix]:
    [len(s) >= len(suffix) && s[len(s)-len(suffix):] == suffix]. *)
Definition HasSuffix (s suffix : string) : bool :=
  (String.length suffix <=? String.length s)%nat
  && String.eqb
       (String.substring (String.length s - String.length suffix)
                  (String.length suffix) s) suffix.

(** [strings.Split(s, sep)] for a non-empty separator: [s] is cut at every
    occurrence of [sep], scanning from the left; [n] counts the bytes of a
    separator still to be skipped and [cur] is the segment being read. *)
Fixpoint splitFrom (sep : string) (n : nat) (cur s : string) : list string :=
  match s with
  | EmptyString => [cur]
  | String c s' =>
      match n with
      | S k => splitFrom sep k cur s'
      | O =>
          if String.prefix sep s
          then cur :: splitFrom sep (String.length sep - 1)%nat "" s'
          else splitFrom sep 0 (cur +:+ String c "") s'
      end
  end.

Definition Split (s sep : string) : list string := splitFrom sep 0 "" s.

(** ** Keys *)

Definition keyJoinChar : string := "@".

(** [generateKey] generates a key for a dfgetTask. *)
Definition generateKey (cID taskID : string) : result string :=
  if IsEmptyStr cID then Err (Wrapf ErrEmptyValue "cID")
  else if IsEmptyStr taskID then Err (Wrapf ErrEmptyValue "taskID")
  else Ok (cID +:+ keyJoinChar +:+ taskID).

Definition generatePeerKey (peerID taskID : string) : string :=
  peerID +:+ keyJoinChar +:+ taskID.

(** ** Task records ([apis/types]) *)

(** Modelled from the spec: the declaration of [types.DfGetTask] is absent;
    these are the fields the manager reads or writes.  All are Go strings. *)
Record DfGetTask := {
  CID : string;
  CallSystem : string;
  Path : string;
  PeerID : string;
  Status : string;
  TaskID : string;
}.

(** Modelled from the spec: the status constant WAITING of [apis/types]. *)
Definition DfGetTaskStatusWAITING : string := "WAITING".

(** Modelled from the spec: the status constant RUNNING of [apis/types]. *)
Definition DfGetTaskStatusRUNNING : string := "RUNNING".

(** Modelled from the spec: the status constant SUCCESS of [apis/types]. *)
Definition DfGetTaskStatusSUCCESS : string := "SUCCESS".

(** Modelled from the spec: the status constant FAILED of [apis/types]. *)
Definition DfGetTaskStatusFAILED : string := "FAILED".

(** The assignment [dfgetTask.Status = status]. *)
Definition setStatus (status : string) (t : DfGetTask) : DfGetTask :=
  {| CID := CID t; CallSystem := CallSystem t; Path := Path t;
     PeerID := PeerID t; Status := status; TaskID := TaskID t |}.

(** Heap locations: the values of type [*types.DfGetTask]. *)
Abbreviation loc := positive.

(** ** Configuration ([supernode/config]) *)

(** The two predicates of [config.Config] the manager calls are taken as
    parameters. *)
Record Config := {
  IsSuperPID : string → bool;
  IsSuperCID : string → bool;
}.

(** ** The stores ([supernode/daemon/util], [pkg/syncmap]) *)

Module Store.
(** Modelled from the spec: [dutil.Store.Put] is absent; an unconditional
upsert, the last write wins. *)
Definition Put (key : string) (v : loc) (s : gmap string loc)
: gmap string loc := <[key := v]> s.

(** Modelled from the spec: [dutil.Store.Get] is absent; it fails with
NotFound when no value exists for the key. *)
Definition Get (s : gmap string loc) (key : string) : result loc :=
match s !! key with
| Some v => Ok v
| None => Err (Wrapf ErrDataNotFound key)
end.

(** Modelled from the spec: [dutil.Store.Delete] is absent; it fails with
NotFound when the key is absent and removes the entry otherwise. *)
Definition Delete (key : string) (s : gmap string loc)
: result unit * gmap string loc :=
match s !! key with
| Some _ => (Ok tt, delete key s)
| None => (Err (Wrapf ErrDataNotFound key), s)
end.
End Store.

Module SyncMap.
(** Modelled from the spec: [syncmap.SyncMap.Add] is absent; an
unconditional upsert, the last write wins.  The manager stores only
strings in this map, so its values are strings. *)
Definition Add (key v : string) (m : gmap string string)
: gmap string string := <[key := v]> m.

(** Modelled from the spec: [syncmap.SyncMap.GetAsString] is absent; it
fails with NotFound when the key is absent. *)
Definition GetAsString (m : gmap string string) (key : string)
: result string :=
match m !! key with
| Some v => Ok v
| None => Err (Wrapf ErrDataNotFound key)
end.

(** Modelled from the spec: [syncmap.SyncMap.Delete] is absent; it removes
the key if it is there and returns nothing. *)
Definition Delete (key : string) (m : gmap string string)
: gmap string string := delete key m.
End SyncMap.

(** ** Metrics *)

(** A [GaugeVec] or [CounterVec] of the Prometheus client: one value per
    tuple of label values.  The values only move by steps of one, so they
    are integers here.  [WithLabelValues(l).Inc()] creates the child at 0
    if it is not there. *)
Definition vecInc `{Countable L} (l : L) (v : gmap L Z) : gmap L Z :=
  <[l := (default 0%Z (v !! l) + 1)%Z]> v.

Definition vecDec `{Countable L} (l : L) (v : gmap L Z) : gmap L Z :=
  <[l := (default 0%Z (v !! l) - 1)%Z]> v.

Definition vecValue `{Countable L} (v : gmap L Z) (l : L) : Z :=
  default 0%Z (v !! l).

Record metrics := {
  dfgetTasks : gmap (string * string) Z;
  dfgetTasksRegisterCount : gmap string Z;
  dfgetTasksFailCount : gmap string Z;
}.

Definition newMetrics : metrics :=
  {| dfgetTasks := ∅; dfgetTasksRegisterCount := ∅;
     dfgetTasksFailCount := ∅ |}.

(** ** The manager *)

(** The field [metrics] of the source is [dtm_metrics] here: a record type
    and a field cannot share a name. *)
Record Manager := {
  cfg : Config;
  dfgetTaskStore : gmap string loc;
  ptoc : gmap string string;
  dtm_metrics : metrics;
}.

Definition NewManager (c : Config) : Manager :=
  {| cfg := c; dfgetTaskStore := ∅; ptoc := ∅; dtm_metrics := newMetrics |}.

(** The program state: the records allocated by the callers and the
    manager. *)
Record World := {
  heap : gmap loc DfGetTask;
  dtm : Manager;
}.

(** Dereferencing a pointer that holds no record is a run-time panic (a nil
    dereference): an operation that panics has [None] as its outcome. *)
Definition outcome (A : Type) : Type := option (result A * World).

(** [getDfgetTask] gets a DfGetTask from [dfgetTaskStore] with the
    specified clientID and taskID.  The store holds only values of type
    [*types.DfGetTask], so the type assertion of the source succeeds. *)
Definition getDfgetTask (m : Manager) (clientID taskID : string)
  : result loc :=
  match generateKey clientID taskID with
  | Err e => Err e
  | Ok key =>
      match Store.Get (dfgetTaskStore m) key with
      | Err e => Err e
      | Ok v => Ok v
      end
  end.

(** [Get] a dfgetTask info with the specified clientID and taskID. *)
Definition Get (m : Manager) (clientID taskID : string) : result loc :=
  getDfgetTask m clientID taskID.

(** [GetCIDByPeerIDAndTaskID] returns the cid with the specified peerID and
    taskID. *)
Definition GetCIDByPeerIDAndTaskID (m : Manager) (peerID taskID : string)
  : result string :=
  SyncMap.GetAsString (ptoc m) (generatePeerKey peerID taskID).

(** The default status of DfgetTask is WAITING. *)
Definition defaultStatus (t : DfGetTask) : DfGetTask :=
  if IsEmptyStr (Status t) then setStatus DfGetTaskStatusWAITING t else t.

(** The metrics update of [Add]. *)
Definition addMetrics (c : Config) (t : DfGetTask) (ms : metrics) : metrics :=
  if negb (IsSuperPID c (PeerID t)) || negb (IsSuperCID c (CID t))
  then {| dfgetTasks := vecInc (CallSystem t, Status t) (dfgetTasks ms);
          dfgetTasksRegisterCount :=
            vecInc (CallSystem t) (dfgetTasksRegisterCount ms);
          dfgetTasksFailCount := dfgetTasksFailCount ms |}
  else ms.

(** [Add] a new dfgetTask; clientID and taskID identify it. *)
Definition Add (dfgetTask : loc) (w : World) : outcome unit :=
  match heap w !! dfgetTask with
  | None => None
  | Some t =>
      if IsEmptyStr (Path t)
      then Some (Err (Wrapf ErrEmptyValue "Path"), w)
      else if IsEmptyStr (PeerID t)
      then Some (Err (Wrapf ErrEmptyValue "PeerID"), w)
      else
        match generateKey (CID t) (TaskID t) with
        | Err e => Some (Err e, w)
        | Ok key =>
            let t' := defaultStatus t in
            let m := dtm w in
            Some (Ok tt,
                  {| heap := <[dfgetTask := t']> (heap w);
                     dtm :=
                       {| cfg := cfg m;
                          dfgetTaskStore :=
                            Store.Put key dfgetTask (dfgetTaskStore m);
                          ptoc :=
                            SyncMap.Add
                              (generatePeerKey (PeerID t') (TaskID t'))
                              (CID t') (ptoc m);
                          dtm_metrics :=
                            addMetrics (cfg m) t' (dtm_metrics m) |} |})
        end
  end.

(** The metrics update of [Delete]. *)
Definition deleteMetrics (c : Config) (clientID : string) (t : DfGetTask)
    (ms : metrics) : metrics :=
  if negb (IsSuperCID c clientID)
  then {| dfgetTasks := vecDec (CallSystem t, Status t) (dfgetTasks ms);
          dfgetTasksRegisterCount := dfgetTasksRegisterCount ms;
          dfgetTasksFailCount := dfgetTasksFailCount ms |}
  else ms.

(** [Delete] deletes a dfgetTask with clientID and taskID. *)
Definition Delete (clientID taskID : string) (w : World) : outcome unit :=
  let m := dtm w in
  match generateKey clientID taskID with
  | Err e => Some (Err e, w)
  | Ok key =>
      match getDfgetTask m clientID taskID with
      | Err e => Some (Err e, w)
      | Ok dfgetTask =>
          match heap w !! dfgetTask with
          | None => None
          | Some t =>
              let ptoc' :=
                SyncMap.Delete (generatePeerKey (PeerID t) (TaskID t)) (ptoc m) in
              let ms' := deleteMetrics (cfg m) clientID t (dtm_metrics m) in
              let (r, store') := Store.Delete key (dfgetTaskStore m) in
              Some (r, {| heap := heap w;
                          dtm := {| cfg := cfg m; dfgetTaskStore := store';
                                    ptoc := ptoc'; dtm_metrics := ms' |} |})
          end
      end
  end.

(** [UpdateStatus] updates the status of the dfgetTask with the specified
    clientID and taskID. *)
Definition UpdateStatus (clientID taskID status : string) (w : World)
  : outcome unit :=
  let m := dtm w in
  match getDfgetTask m clientID taskID with
  | Err e => Some (Err e, w)
  | Ok dfgetTask =>
      match heap w !! dfgetTask with
      | None => None
      | Some t =>
          let '(t1, gauge1) :=
            if negb (String.eqb (Status t) DfGetTaskStatusSUCCESS)
            then (setStatus status t,
                  vecInc (CallSystem t, status)
                    (vecDec (CallSystem t, Status t)
                       (dfgetTasks (dtm_metrics m))))
            else (t, dfgetTasks (dtm_metrics m)) in
          (* Add the total failed count. *)
          let fail1 :=
            if String.eqb (Status t1) DfGetTaskStatusFAILED
            then vecInc (CallSystem t1) (dfgetTasksFailCount (dtm_metrics m))
            else dfgetTasksFailCount (dtm_metrics m) in
          Some (Ok tt,
                {| heap := <[dfgetTask := t1]> (heap w);
                   dtm :=
                     {| cfg := cfg m; dfgetTaskStore := dfgetTaskStore m;
                        ptoc := ptoc m;
                        dtm_metrics :=
                          {| dfgetTasks := gauge1;
                             dfgetTasksRegisterCount :=
                               dfgetTasksRegisterCount (dtm_metrics m);
                             dfgetTasksFailCount := fail1 |} |} |})
      end
  end.

(** ** Scans of the peer index *)

(** [sync.Map.Range] visits every entry once, in an order it does not
    specify: [order] is a possible order of visit of the map [m]. *)
Definition rangeOrder (m : gmap string string)
    (order : list (string * string)) : Prop :=
  order ≡ₚ map_to_list m.

(** The [rangeFunc] of [GetCIDsByTaskID], applied to one entry. *)
Definition cidsRangeFunc (m : Manager) (suffixString : string)
    (result : list string) (kv : string * string) : list string :=
  let key := kv.1 in
  if negb (HasSuffix key suffixString) then result
  else
    match SyncMap.GetAsString (ptoc m) key with
    | Err _ => result
    | Ok cid => result ++ [cid]
    end.

(** [GetCIDsByTaskID] returns cids as a string slice with the specified
    taskID, for the order of visit [order]. *)
Definition GetCIDsByTaskID (m : Manager) (taskID : string)
    (order : list (string * string)) : result (list string) :=
  let suffixString := keyJoinChar +:+ taskID in
  Ok (foldl (cidsRangeFunc m suffixString) [] order).

(** The [rangeFunc] of [GetCIDAndTaskIDsByPeerID], applied to one entry;
    [None] is the panic of an index out of range. *)
Definition cidTaskRangeFunc (m : Manager) (prefixStr : string)
    (result : option (gmap string string)) (kv : string * string)
  : option (gmap string string) :=
  match result with
  | None => None
  | Some res =>
      let key := kv.1 in
      if negb (HasPrefix key prefixStr) then Some res
      else
        match SyncMap.GetAsString (ptoc m) key with
        | Err _ => Some res
        | Ok cid =>
            (* get TaskID from the key *)
            let splitResult := Split key keyJoinChar in
            match splitResult !! (length splitResult - 1)%nat with
            | None => None
            | Some taskID => Some (<[cid := taskID]> res)
            end
        end
  end.

(** [GetCIDAndTaskIDsByPeerID] returns a cid<->taskID map by the specified
    peerID, for the order of visit [order]. *)
Definition GetCIDAndTaskIDsByPeerID (m : Manager) (peerID : string)
    (order : list (string * string))
  : option (result (gmap string string)) :=
  let prefixStr := peerID +:+ keyJoinChar in
  match foldl (cidTaskRangeFunc m prefixStr) (Some ∅) order with
  | None => None
  | Some res => Some (Ok res)
  end.

(** ** Sequences of operations *)

Inductive Op :=
  | OpAdd (dfgetTask : loc)
  | OpDelete (clientID taskID : string)
  | OpUpdateStatus (clientID taskID status : string).

Definition runOp (o : Op) (w : World) : outcome unit :=
  match o with
  | OpAdd p => Add p w
  | OpDelete c t => Delete c t w
  | OpUpdateStatus c t s => UpdateStatus c t s w
  end.

(** The state after a sequence of operations, whatever each returned. *)
Fixpoint runOps (ops : list Op) (w : World) : option World :=
  match ops with
  | [] => Some w
  | o :: ops' =>
      match runOp o w with
      | None => None
      | Some (_, w') => runOps ops' w'
      end
  end.

Definition initWorld (c : Config) (h : gmap loc DfGetTask) : World :=
  {| heap := h; dtm := NewManager c |}.

(** ** Properties of states *)

(** [s] has no occurrence of the join character. *)
Fixpoint freeOfJoinChar (s : string) : bool :=
  match s with
  | EmptyString => true
  | String _ s' => negb (String.prefix keyJoinChar s) && freeOfJoinChar s'
  end.

(** The last element of the slice that [Split] returns,
    [splitResult[len(splitResult)-1]]. *)
Definition lastSegment (key : string) : option string :=
  let splitResult := Split key keyJoinChar in
  splitResult !! (length splitResult - 1)%nat.

(** The key under which [Add] files a record in the peer index. *)
Definition peerKeyOf (t : DfGetTask) : string :=
  generatePeerKey (PeerID t) (TaskID t).

(** A record that passes the checks of [Add]. *)
Definition acceptable (t : DfGetTask) : Prop :=
  Path t ≠ "" ∧ PeerID t ≠ "" ∧ CID t ≠ "" ∧ TaskID t ≠ "".

(** The record [t] is live under the key [k] of the primary store. *)
Definition liveRecord (w : World) (k : string) (t : DfGetTask) : Prop :=
  ∃ p, dfgetTaskStore (dtm w) !! k = Some p ∧ heap w !! p = Some t.

(** Every live record has the peer-index entry of its own peer and task
    identities, and that entry holds its client identity. *)
Definition recordsIndexed (w : World) : Prop :=
  ∀ k t, liveRecord w k t → ptoc (dtm w) !! peerKeyOf t = Some (CID t).

(** Every peer-index entry is the entry of some live record. *)
Definition noOrphanEntry (w : World) : Prop :=
  ∀ pk c, ptoc (dtm w) !! pk = Some c →
    ∃ k t, liveRecord w k t ∧ peerKeyOf t = pk ∧ CID t = c.

Definition Lockstep (w : World) : Prop :=
  recordsIndexed w ∧ noOrphanEntry w.

(** Every stored pointer holds a record, filed under the key of its own
    client and task identities. *)
Definition storeKeyed (w : World) : Prop :=
  ∀ k p, dfgetTaskStore (dtm w) !! k = Some p →
    ∃ t, heap w !! p = Some t ∧ generateKey (CID t) (TaskID t) = Ok k.

(** No two live records share a peer-index entry. *)
Definition entriesApart (w : World) : Prop :=
  ∀ k1 k2 t1 t2, liveRecord w k1 t1 → liveRecord w k2 t2 →
    peerKeyOf t1 = peerKeyOf t2 → k1 = k2.

Record Consistent (w : World) : Prop := {
  consistent_keyed : storeKeyed w;
  consistent_apart : entriesApart w;
  consistent_lockstep : Lockstep w;
}.

(** [Add] of the record at [dfgetTask] neither replaces a live record that
    has another peer-index entry nor takes over the peer-index entry of
    another live record: a live record has the key of the new record in the
    primary store if and only if it has its key in the peer index. *)
Definition addCompatible (w : World) (dfgetTask : loc) : bool :=
  match heap w !! dfgetTask with
  | None => true
  | Some t =>
      match generateKey (CID t) (TaskID t) with
      | Err _ => true
      | Ok key =>
          forallb
            (λ kp : string * loc,
               match heap w !! kp.2 with
               | None => true
               | Some t' =>
                   Bool.eqb (String.eqb kp.1 key)
                            (String.eqb (peerKeyOf t') (peerKeyOf t))
               end)
            (map_to_list (dfgetTaskStore (dtm w)))
      end
  end.

(** The records [x] and [y] have the same client, peer and task
    identities. *)
Definition sameIds (x y : DfGetTask) : Prop :=
  CID x = CID y ∧ PeerID x = PeerID y ∧ TaskID x = TaskID y.

(** What the entry [kv] of the peer index adds to the result of
    [GetCIDsByTaskID]. *)
Definition cidsOfEntry (m : Manager) (suffixString : string)
    (kv : string * string) : list string :=
  if HasSuffix kv.1 suffixString
  then match ptoc m !! kv.1 with Some cid => [cid] | None => [] end
  else [].

(** Every [Add] of the sequence is compatible with the state it runs in. *)
Fixpoint admissible (ops : list Op) (w : World) : bool :=
  match ops with
  | [] => true
  | o :: ops' =>
      match o with OpAdd p => addCompatible w p | _ => true end
      && match runOp o w with
         | None => true
         | Some (_, w') => admissible ops' w'
         end
  end.

(** Every entry of the peer index is the peer key and client identity of
    some record of the heap. *)
Definition indexFromHeap (w : World) : Prop :=
  ∀ pk c, ptoc (dtm w) !! pk = Some c →
    ∃ p t, heap w !! p = Some t ∧ peerKeyOf t = pk ∧ CID t = c.

(** [List] returns the list of dfgetTask: the source returns [nil, nil]. *)
Definition List (m : Manager) (filter : gmap string string)
  : result (list loc) := Ok [].

(** No task identity of a record of the heap holds the join character. *)
Definition tasksFree (w : World) : bool :=
  forallb (λ pt : loc * DfGetTask, freeOfJoinChar (TaskID pt.2))
          (map_to_list (heap w)).

(** ** Sample data *)

(** A configuration in which the supernode has the peer identity
    [supernode] and its client identities start with [cdnnode:]. *)
Definition cfg0 : Config :=
  {| IsSuperPID := λ s, String.eqb s "supernode";
     IsSuperCID := λ s, String.prefix "cdnnode:" s |}.

Definition mkTask (cid peer task status : string) : DfGetTask :=
  {| CID := cid; CallSystem := "sys"; Path := "/file"; PeerID := peer;
     Status := status; TaskID := task |}.

(** * Proofs *)

(** ** Strings *)
Section string_facts.
Implicit Types a b s cur : string.

Lemma string_app_cons x a b : String x a +:+ b = String x (a +:+ b).
Proof. reflexivity. Qed.

Lemma string_app_nil_l s : "" +:+ s = s.
Proof. reflexivity. Qed.

Lemma string_app_nil_r s : s +:+ "" = s.
Proof.
induction s as [|c s IH]; [done|]. by rewrite string_app_cons, IH.
Qed.

Lemma string_app_assoc a b c : (a +:+ b) +:+ c = a +:+ b +:+ c.
Proof.
induction a as [|x a IH]; [done|]. by rewrite !string_app_cons, IH.
Qed.

Lemma string_length_app a b :
String.length (a +:+ b) = (String.length a + String.length b)%nat.
Proof.
induction a as [|x a IH]; [done|]. rewrite string_app_cons. simpl.
by rewrite IH.
Qed.

Lemma substring_all s : String.substring 0 (String.length s) s = s.
Proof. induction s as [|c s IH]; [done|]. simpl. by rewrite IH. Qed.

Lemma substring_app_l a b :
String.substring 0 (String.length a) (a +:+ b) = a.
Proof.
induction a as [|x a IH].
- by destruct b.
- rewrite string_app_cons. simpl. by rewrite IH.
Qed.

Lemma substring_app_r a b :
String.substring (String.length a) (String.length b) (a +:+ b) = b.
Proof. induction a as [|x a IH]; [apply substring_all|done]. Qed.

Lemma HasSuffix_app a b : HasSuffix (a +:+ b) b = true.
Proof.
unfold HasSuffix. rewrite string_length_app.
replace (String.length a + String.length b - String.length b)%nat
with (String.length a) by lia.
rewrite substring_app_r, String.eqb_refl, andb_true_r.
apply Nat.leb_le. lia.
Qed.

Lemma HasPrefix_app a b : HasPrefix (a +:+ b) a = true.
Proof.
unfold HasPrefix.
rewrite string_length_app, substring_app_l, String.eqb_refl, andb_true_r.
apply Nat.leb_le. lia.
Qed.

Lemma IsEmptyStr_true s : IsEmptyStr s = true ↔ s = "".
Proof. apply String.eqb_eq. Qed.

Lemma IsEmptyStr_false s : IsEmptyStr s = false ↔ s ≠ "".
Proof. apply String.eqb_neq. Qed.
End string_facts.

Section split_facts.
Implicit Types a b s cur : string.

Lemma splitFrom_join_cons cur x s :
splitFrom keyJoinChar 0 cur (String x s) =
if String.prefix keyJoinChar (String x s)
then cur :: splitFrom keyJoinChar 0 "" s
else splitFrom keyJoinChar 0 (cur +:+ String x "") s.
Proof. reflexivity. Qed.

Lemma freeOfJoinChar_cons x s :
freeOfJoinChar (String x s) =
negb (String.prefix keyJoinChar (String x s)) && freeOfJoinChar s.
Proof. reflexivity. Qed.

Lemma splitFrom_join_last_is_Some cur s :
is_Some (last (splitFrom keyJoinChar 0 cur s)).
Proof.
revert cur. induction s as [|x s IH]; intros cur; [by eexists|].
rewrite splitFrom_join_cons.
destruct (String.prefix keyJoinChar (String x s)); [|apply IH].
rewrite last_cons. destruct (IH "") as [y ->]. by eexists.
Qed.

Lemma splitFrom_join_free cur b :
freeOfJoinChar b = true →
splitFrom keyJoinChar 0 cur b = [cur +:+ b].
Proof.
revert cur. induction b as [|x b IH]; intros cur Hb.
- by rewrite string_app_nil_r.
- rewrite splitFrom_join_cons. rewrite freeOfJoinChar_cons in Hb.
apply andb_true_iff in Hb as [Hx Hb].
apply negb_true_iff in Hx. rewrite Hx, (IH _ Hb).
by rewrite string_app_assoc.
Qed.

Lemma splitFrom_join_app_last cur a b :
last (splitFrom keyJoinChar 0 cur (a +:+ keyJoinChar +:+ b)) =
last (splitFrom keyJoinChar 0 "" b).
Proof.
revert cur. induction a as [|x a IH]; intros cur.
- rewrite string_app_nil_l. unfold keyJoinChar at 2.
rewrite string_app_cons, string_app_nil_l, splitFrom_join_cons.
replace (String.prefix keyJoinChar _) with true by (by destruct b).
rewrite last_cons.
by destruct (splitFrom_join_last_is_Some "" b) as [y ->].
- rewrite string_app_cons, splitFrom_join_cons.
destruct (String.prefix keyJoinChar _); [|apply IH].
rewrite last_cons, IH.
by destruct (splitFrom_join_last_is_Some "" b) as [y ->].
Qed.

Lemma lastSegment_last key :
lastSegment key = last (Split key keyJoinChar).
Proof.
unfold lastSegment. cbv zeta. by rewrite last_lookup, Nat.sub_1_r.
Qed.

Lemma lastSegment_is_Some key : is_Some (lastSegment key).
Proof. rewrite lastSegment_last. apply splitFrom_join_last_is_Some. Qed.

Lemma lastSegment_generatePeerKey a b :
freeOfJoinChar b = true →
lastSegment (generatePeerKey a b) = Some b.
Proof.
intros Hb. rewrite lastSegment_last. unfold Split, generatePeerKey.
by rewrite splitFrom_join_app_last, (splitFrom_join_free _ _ Hb).
Qed.
End split_facts.

(** ** Keys *)

Section key_facts.
Implicit Types a b cID taskID : string.

Lemma generateKey_Ok cID taskID :
cID ≠ "" → taskID ≠ "" →
generateKey cID taskID = Ok (cID +:+ keyJoinChar +:+ taskID).
Proof.
intros Hc Ht. unfold generateKey.
apply IsEmptyStr_false in Hc, Ht. by rewrite Hc, Ht.
Qed.

Lemma generateKey_Ok_inv cID taskID key :
generateKey cID taskID = Ok key →
cID ≠ "" ∧ taskID ≠ "" ∧ key = cID +:+ keyJoinChar +:+ taskID.
Proof.
unfold generateKey.
destruct (IsEmptyStr cID) eqn:Hc; [done|].
destruct (IsEmptyStr taskID) eqn:Ht; [done|].
intros [= <-]. by rewrite <- !IsEmptyStr_false.
Qed.

Lemma generateKey_Err cID taskID :
cID = "" ∨ taskID = "" →
∃ e, generateKey cID taskID = Err e ∧ cause e = ErrEmptyValue.
Proof.
intros H. unfold generateKey.
destruct (IsEmptyStr cID) eqn:Hc; [by eexists|].
destruct (IsEmptyStr taskID) eqn:Ht; [by eexists|].
apply IsEmptyStr_false in Hc, Ht. by destruct H.
Qed.

Lemma getDfgetTask_lookup m clientID taskID :
clientID ≠ "" → taskID ≠ "" →
getDfgetTask m clientID taskID =
match dfgetTaskStore m !! (clientID +:+ keyJoinChar +:+ taskID) with
| Some p => Ok p
| None =>
Err (Wrapf ErrDataNotFound (clientID +:+ keyJoinChar +:+ taskID))
end.
Proof.
intros Hc Ht. unfold getDfgetTask, Store.Get.
rewrite (generateKey_Ok _ _ Hc Ht). by destruct (_ !! _).
Qed.

Lemma getDfgetTask_Ok_inv m clientID taskID p :
getDfgetTask m clientID taskID = Ok p →
∃ key, generateKey clientID taskID = Ok key ∧
   dfgetTaskStore m !! key = Some p.
Proof.
unfold getDfgetTask, Store.Get.
destruct (generateKey clientID taskID) as [key|]; [|done].
destruct (dfgetTaskStore m !! key) eqn:Hk; [|done].
intros [= <-]. eauto.
Qed.
End key_facts.

(** ** Add *)

(** C6: when the path, the peer identity, the client identity or the task
    identity of the record is empty, [Add] fails with an error whose cause
    is [ErrEmptyValue], and the whole state (the primary store, the peer
    index, the record and the metrics) is as it was. *)
Theorem Add_empty_value (w : World) (dfgetTask : loc) (t : DfGetTask) :
  heap w !! dfgetTask = Some t →
  Path t = "" ∨ PeerID t = "" ∨ CID t = "" ∨ TaskID t = "" →
  ∃ e, Add dfgetTask w = Some (Err e, w) ∧ cause e = ErrEmptyValue.
Proof.
  intros Hp Hempty. unfold Add. rewrite Hp.
  destruct (IsEmptyStr (Path t)) eqn:HPath; [by eexists|].
  destruct (IsEmptyStr (PeerID t)) eqn:HPeer; [by eexists|].
  apply IsEmptyStr_false in HPath, HPeer.
  destruct (generateKey_Err (CID t) (TaskID t)) as (e & -> & He);
    [|by eexists].
  destruct Hempty as [?|[?|[?|?]]]; auto; done.
Qed.

Lemma Add_empty_value_witness :
  ∃ e, Add 1 (initWorld cfg0 {[ 1%positive := mkTask "c1" "" "t" "" ]})
       = Some (Err e, initWorld cfg0 {[ 1%positive := mkTask "c1" "" "t" "" ]})
       ∧ cause e = ErrEmptyValue.
Proof.
  apply (Add_empty_value _ 1 (mkTask "c1" "" "t" "")).
  - reflexivity.
  - right. left. reflexivity.
Defined.

Section add_facts.
Implicit Types (w : World) (t : DfGetTask).

Lemma defaultStatus_ids t :
CID (defaultStatus t) = CID t ∧ CallSystem (defaultStatus t) = CallSystem t
∧ Path (defaultStatus t) = Path t ∧ PeerID (defaultStatus t) = PeerID t
∧ TaskID (defaultStatus t) = TaskID t.
Proof. unfold defaultStatus. by destruct (IsEmptyStr (Status t)). Qed.

Lemma peerKeyOf_defaultStatus t : peerKeyOf (defaultStatus t) = peerKeyOf t.
Proof. unfold defaultStatus. by destruct (IsEmptyStr (Status t)). Qed.

Lemma peerKeyOf_setStatus s t : peerKeyOf (setStatus s t) = peerKeyOf t.
Proof. reflexivity. Qed.

(** What a successful [Add] leaves. *)
Lemma Add_Ok w dfgetTask t :
heap w !! dfgetTask = Some t →
Path t ≠ "" → PeerID t ≠ "" → CID t ≠ "" → TaskID t ≠ "" →
Add dfgetTask w =
Some (Ok tt,
  {| heap := <[dfgetTask := defaultStatus t]> (heap w);
     dtm :=
       {| cfg := cfg (dtm w);
          dfgetTaskStore :=
            <[CID t +:+ keyJoinChar +:+ TaskID t := dfgetTask]>
              (dfgetTaskStore (dtm w));
          ptoc := <[peerKeyOf t := CID t]> (ptoc (dtm w));
          dtm_metrics :=
            addMetrics (cfg (dtm w)) (defaultStatus t)
              (dtm_metrics (dtm w)) |} |}).
Proof.
intros Hp HPath HPeer HCID HTask. unfold Add. rewrite Hp.
apply IsEmptyStr_false in HPath, HPeer. rewrite HPath, HPeer.
rewrite (generateKey_Ok _ _ HCID HTask). cbv zeta.
unfold Store.Put, SyncMap.Add.
destruct (defaultStatus_ids t) as (-> & _ & _ & HP & HT).
by rewrite <- (peerKeyOf_defaultStatus t).
Qed.

Lemma Add_Ok_inv w dfgetTask w' :
Add dfgetTask w = Some (Ok tt, w') →
∃ t, heap w !! dfgetTask = Some t ∧
 Path t ≠ "" ∧ PeerID t ≠ "" ∧ CID t ≠ "" ∧ TaskID t ≠ "".
Proof.
unfold Add. destruct (heap w !! dfgetTask) as [t|]; [|done].
destruct (IsEmptyStr (Path t)) eqn:HPath; [done|].
destruct (IsEmptyStr (PeerID t)) eqn:HPeer; [done|].
destruct (generateKey (CID t) (TaskID t)) as [key|] eqn:Hkey; [|done].
intros _. apply generateKey_Ok_inv in Hkey as (? & ? & _).
apply IsEmptyStr_false in HPath, HPeer. eauto 10.
Qed.

Lemma Add_Err_inv w dfgetTask e w' :
Add dfgetTask w = Some (Err e, w') → w' = w.
Proof.
unfold Add. destruct (heap w !! dfgetTask) as [t|]; [|done].
destruct (IsEmptyStr (Path t)); [congruence|].
destruct (IsEmptyStr (PeerID t)); [congruence|].
destruct (generateKey (CID t) (TaskID t)); [done|congruence].
Qed.

Lemma vecValue_vecInc `{Countable L} (l : L) (v : gmap L Z) :
vecValue (vecInc l v) l = (vecValue v l + 1)%Z.
Proof. unfold vecValue, vecInc. by rewrite lookup_insert_eq. Qed.

Lemma vecValue_vecDec `{Countable L} (l : L) (v : gmap L Z) :
vecValue (vecDec l v) l = (vecValue v l - 1)%Z.
Proof. unfold vecValue, vecDec. by rewrite lookup_insert_eq. Qed.
End add_facts.

(** C2: for a record with non-empty path, peer identity, client identity
    and task identity, [Add] succeeds; afterwards [Get] with the record's
    client and task identities returns the pointer that was added, which
    holds the record as [Add] left it (the caller's record, its status
    defaulted to WAITING when it was empty), and
    [GetCIDByPeerIDAndTaskID] with the record's peer and task identities
    returns its client identity. *)
Theorem Add_then_Get (w : World) (dfgetTask : loc) (t : DfGetTask) :
  heap w !! dfgetTask = Some t →
  Path t ≠ "" → PeerID t ≠ "" → CID t ≠ "" → TaskID t ≠ "" →
  ∃ w', Add dfgetTask w = Some (Ok tt, w') ∧
        Get (dtm w') (CID t) (TaskID t) = Ok dfgetTask ∧
        heap w' !! dfgetTask = Some (defaultStatus t) ∧
        GetCIDByPeerIDAndTaskID (dtm w') (PeerID t) (TaskID t) = Ok (CID t).
Proof.
  intros Hp HPath HPeer HCID HTask. eexists. split; [by apply Add_Ok|].
  split; [|split].
  - unfold Get. rewrite getDfgetTask_lookup by done. simpl.
    by rewrite lookup_insert_eq.
  - simpl. by rewrite lookup_insert_eq.
  - unfold GetCIDByPeerIDAndTaskID, SyncMap.GetAsString. simpl.
    fold (peerKeyOf t). by rewrite lookup_insert_eq.
Qed.

Lemma Add_then_Get_witness :
  ∃ w', Add 1 (initWorld cfg0 {[ 1%positive := mkTask "c1" "p1" "t" "" ]})
        = Some (Ok tt, w') ∧
        Get (dtm w') "c1" "t" = Ok 1%positive ∧
        heap w' !! 1%positive = Some (mkTask "c1" "p1" "t" "WAITING") ∧
        GetCIDByPeerIDAndTaskID (dtm w') "p1" "t" = Ok "c1".
Proof.
  apply (Add_then_Get (initWorld cfg0 {[ 1%positive := mkTask "c1" "p1" "t" "" ]})
           1 (mkTask "c1" "p1" "t" "")); [reflexivity|done..].
Defined.

(** C7: when [Add] accepts a record, the gauge of (call system, initial
    status) and the registration counter of the call system each go up by
    one if and only if it is not the case that both the peer identity is the
    supernode's and the client identity is the supernode's; when both are,
    the metrics are as they were. *)
Theorem Add_metrics (w w' : World) (dfgetTask : loc) :
  Add dfgetTask w = Some (Ok tt, w') →
  ∃ t, heap w' !! dfgetTask = Some t ∧
    let ms := dtm_metrics (dtm w) in
    let ms' := dtm_metrics (dtm w') in
    let reserved :=
      IsSuperPID (cfg (dtm w)) (PeerID t) = true ∧
      IsSuperCID (cfg (dtm w)) (CID t) = true in
    ((vecValue (dfgetTasks ms') (CallSystem t, Status t) =
        (vecValue (dfgetTasks ms) (CallSystem t, Status t) + 1)%Z ∧
      vecValue (dfgetTasksRegisterCount ms') (CallSystem t) =
        (vecValue (dfgetTasksRegisterCount ms) (CallSystem t) + 1)%Z)
     ↔ ¬ reserved)
    ∧ (reserved → ms' = ms).
Proof.
  intros HAdd.
  destruct (Add_Ok_inv _ _ _ HAdd) as (t & Hp & HPath & HPeer & HCID & HTask).
  rewrite (Add_Ok _ _ _ Hp HPath HPeer HCID HTask) in HAdd.
  injection HAdd as <-. exists (defaultStatus t). simpl.
  split; [by rewrite lookup_insert_eq|].
  unfold addMetrics.
  destruct (defaultStatus_ids t) as (-> & _ & _ & -> & _).
  destruct (IsSuperPID _ _) eqn:HPid, (IsSuperCID _ _) eqn:HCid; simpl;
    rewrite ?vecValue_vecInc.
  all: (split; [split|]).
  all: try (intros _ [? ?]; done); try (intros [? ?]; done);
    try (intros _; done).
  - intros [? _]. lia.
  - intros H. destruct H. done.
Qed.

Lemma Add_metrics_witness :
  let w := initWorld cfg0 {[ 1%positive := mkTask "c1" "p1" "t" "" ]} in
  ∃ w', Add 1 w = Some (Ok tt, w') ∧
  ∃ t, heap w' !! 1%positive = Some t ∧
    let ms := dtm_metrics (dtm w) in
    let ms' := dtm_metrics (dtm w') in
    let reserved :=
      IsSuperPID (cfg (dtm w)) (PeerID t) = true ∧
      IsSuperCID (cfg (dtm w)) (CID t) = true in
    ((vecValue (dfgetTasks ms') (CallSystem t, Status t) =
        (vecValue (dfgetTasks ms) (CallSystem t, Status t) + 1)%Z ∧
      vecValue (dfgetTasksRegisterCount ms') (CallSystem t) =
        (vecValue (dfgetTasksRegisterCount ms) (CallSystem t) + 1)%Z)
     ↔ ¬ reserved)
    ∧ (reserved → ms' = ms).
Proof.
  intros w. eexists. split; [vm_compute; reflexivity|].
  apply (Add_metrics w _ 1). vm_compute. reflexivity.
Defined.

(** ** Delete *)

Section delete_facts.
Implicit Types (w : World) (t : DfGetTask).

(** What a successful [Delete] leaves. *)
Lemma Delete_Ok w clientID taskID dfgetTask t :
getDfgetTask (dtm w) clientID taskID = Ok dfgetTask →
heap w !! dfgetTask = Some t →
Delete clientID taskID w =
Some (Ok tt,
  {| heap := heap w;
     dtm :=
       {| cfg := cfg (dtm w);
          dfgetTaskStore :=
            delete (clientID +:+ keyJoinChar +:+ taskID)
              (dfgetTaskStore (dtm w));
          ptoc := delete (peerKeyOf t) (ptoc (dtm w));
          dtm_metrics :=
            deleteMetrics (cfg (dtm w)) clientID t
              (dtm_metrics (dtm w)) |} |}).
Proof.
intros Hget Hp. unfold Delete. cbv zeta. rewrite Hget, Hp.
apply getDfgetTask_Ok_inv in Hget as (key & Hkey & Hstore).
rewrite Hkey. apply generateKey_Ok_inv in Hkey as (_ & _ & ->).
unfold Store.Delete. by rewrite Hstore.
Qed.

Lemma Delete_Err_inv w clientID taskID e w' :
Delete clientID taskID w = Some (Err e, w') → w' = w.
Proof.
unfold Delete. cbv zeta.
destruct (generateKey clientID taskID) as [key|] eqn:Hkey;
[|congruence].
destruct (getDfgetTask (dtm w) clientID taskID) as [p|] eqn:Hget;
[|congruence].
destruct (heap w !! p) as [t|]; [|done].
apply getDfgetTask_Ok_inv in Hget as (key' & Hkey' & Hstore).
rewrite Hkey in Hkey'. injection Hkey' as <-.
unfold Store.Delete. by rewrite Hstore.
Qed.
End delete_facts.

(** C4: when a record is present under (clientID, taskID), [Delete]
    succeeds; afterwards [Get] with the same identities fails with
    NotFound, and so does [GetCIDByPeerIDAndTaskID] with the peer and task
    identities of the deleted record. *)
Theorem Delete_then_lookups (w : World) (clientID taskID : string)
    (dfgetTask : loc) (t : DfGetTask) :
  Get (dtm w) clientID taskID = Ok dfgetTask →
  heap w !! dfgetTask = Some t →
  ∃ w', Delete clientID taskID w = Some (Ok tt, w') ∧
        failsWith (Get (dtm w') clientID taskID) ErrDataNotFound ∧
        failsWith (GetCIDByPeerIDAndTaskID (dtm w') (PeerID t) (TaskID t))
                  ErrDataNotFound.
Proof.
  intros Hget Hp. eexists.
  split; [exact (Delete_Ok _ _ _ _ _ Hget Hp)|].
  apply getDfgetTask_Ok_inv in Hget as (key & Hkey & _).
  apply generateKey_Ok_inv in Hkey as (Hc & Ht & _). split.
  - unfold Get. rewrite getDfgetTask_lookup by done. simpl.
    by rewrite lookup_delete_eq.
  - unfold GetCIDByPeerIDAndTaskID, SyncMap.GetAsString. simpl.
    fold (peerKeyOf t). by rewrite lookup_delete_eq.
Qed.

Lemma Delete_then_lookups_witness :
  let w := {| heap := {[ 1%positive := mkTask "c1" "p1" "t" "RUNNING" ]};
              dtm := {| cfg := cfg0;
                        dfgetTaskStore := {[ "c1@t" := 1%positive ]};
                        ptoc := {[ "p1@t" := "c1" ]};
                        dtm_metrics := newMetrics |} |} in
  ∃ w', Delete "c1" "t" w = Some (Ok tt, w') ∧
        failsWith (Get (dtm w') "c1" "t") ErrDataNotFound ∧
        failsWith (GetCIDByPeerIDAndTaskID (dtm w') "p1" "t") ErrDataNotFound.
Proof.
  intros w.
  apply (Delete_then_lookups w "c1" "t" 1 (mkTask "c1" "p1" "t" "RUNNING"));
    vm_compute; reflexivity.
Defined.



(** ** UpdateStatus *)

Section update_facts.
Implicit Types (w : World) (t : DfGetTask).

Lemma setStatus_same t : setStatus (Status t) t = t.
Proof. by destruct t. Qed.

Lemma UpdateStatus_Err_inv w clientID taskID status e w' :
UpdateStatus clientID taskID status w = Some (Err e, w') → w' = w.
Proof.
unfold UpdateStatus. cbv zeta.
destruct (getDfgetTask (dtm w) clientID taskID) as [p|]; [|congruence].
destruct (heap w !! p) as [t|]; [|done].
by destruct (negb _).
Qed.

(** The record that [UpdateStatus] leaves at the address it updates. *)
Lemma UpdateStatus_Ok_inv w clientID taskID status w' :
UpdateStatus clientID taskID status w = Some (Ok tt, w') →
∃ dfgetTask t,
getDfgetTask (dtm w) clientID taskID = Ok dfgetTask ∧
heap w !! dfgetTask = Some t ∧
cfg (dtm w') = cfg (dtm w) ∧
dfgetTaskStore (dtm w') = dfgetTaskStore (dtm w) ∧
ptoc (dtm w') = ptoc (dtm w) ∧
heap w' =
<[dfgetTask :=
  if String.eqb (Status t) DfGetTaskStatusSUCCESS then t
  else setStatus status t]> (heap w).
Proof.
unfold UpdateStatus. cbv zeta.
destruct (getDfgetTask (dtm w) clientID taskID) as [p|]; [|done].
destruct (heap w !! p) as [t|] eqn:Hp; [|done].
intros HU. exists p, t.
destruct (String.eqb (Status t) _); simpl in HU; injection HU as <-;
done.
Qed.
End update_facts.

(** C1, as the code has it: when the stored record has the status SUCCESS,
    [UpdateStatus] to FAILED succeeds and returns the state it was given:
    the status stays SUCCESS, the gauge is not moved, and the failure
    counter is not incremented either, since the counter is guarded by the
    status of the record, which is still SUCCESS. *)
Theorem UpdateStatus_FAILED_on_SUCCESS (w : World) (clientID taskID : string)
    (dfgetTask : loc) (t : DfGetTask) :
  Get (dtm w) clientID taskID = Ok dfgetTask →
  heap w !! dfgetTask = Some t →
  Status t = DfGetTaskStatusSUCCESS →
  UpdateStatus clientID taskID DfGetTaskStatusFAILED w = Some (Ok tt, w).
Proof.
  unfold Get. intros Hget Hp HS. unfold UpdateStatus. cbv zeta.
  rewrite Hget, Hp, HS. simpl. rewrite HS. simpl.
  rewrite (insert_id _ _ _ Hp).
  by destruct w as [h [c s pt [g r f]]].
Qed.

Lemma UpdateStatus_FAILED_on_SUCCESS_witness :
  let w := {| heap := {[ 1%positive := mkTask "c1" "p1" "t" "SUCCESS" ]};
              dtm := {| cfg := cfg0;
                        dfgetTaskStore := {[ "c1@t" := 1%positive ]};
                        ptoc := {[ "p1@t" := "c1" ]};
                        dtm_metrics := newMetrics |} |} in
  UpdateStatus "c1" "t" "FAILED" w = Some (Ok tt, w).
Proof.
  intros w.
  apply (UpdateStatus_FAILED_on_SUCCESS w "c1" "t" 1
           (mkTask "c1" "p1" "t" "SUCCESS")); vm_compute; reflexivity.
Defined.

(** C1, as stated, fails: after [Add] and [UpdateStatus] to SUCCESS, an
    [UpdateStatus] to FAILED leaves the failure counter of the call system
    where it was; it is not one more. *)
Lemma UpdateStatus_FAILED_on_SUCCESS_counterexample :
  ∃ w w',
    runOps [OpAdd 1; OpUpdateStatus "c1" "t" "SUCCESS"]
      (initWorld cfg0 {[ 1%positive := mkTask "c1" "p1" "t" "" ]}) = Some w ∧
    Get (dtm w) "c1" "t" = Ok 1%positive ∧
    heap w !! 1%positive = Some (mkTask "c1" "p1" "t" "SUCCESS") ∧
    UpdateStatus "c1" "t" "FAILED" w = Some (Ok tt, w') ∧
    vecValue (dfgetTasksFailCount (dtm_metrics (dtm w'))) "sys" ≠
    (vecValue (dfgetTasksFailCount (dtm_metrics (dtm w))) "sys" + 1)%Z.
Proof.
  do 2 eexists. split; [vm_compute; reflexivity|].
  split; [vm_compute; reflexivity|].
  split; [vm_compute; reflexivity|].
  split; [vm_compute; reflexivity|].
  vm_compute. discriminate.
Qed.

(** C10: whatever [UpdateStatus] returns, it leaves the configuration, the
    primary store (its keys and the pointers they hold) and the peer index
    as they were; every record other than the one addressed is as it was;
    the addressed record differs from what it was at most in its status;
    and when the call fails the whole state is as it was. *)
Theorem UpdateStatus_frame (w w' : World) (clientID taskID status : string)
    (r : result unit) :
  UpdateStatus clientID taskID status w = Some (r, w') →
  cfg (dtm w') = cfg (dtm w) ∧
  dfgetTaskStore (dtm w') = dfgetTaskStore (dtm w) ∧
  ptoc (dtm w') = ptoc (dtm w) ∧
  (∀ q, Get (dtm w) clientID taskID ≠ Ok q → heap w' !! q = heap w !! q) ∧
  (∀ q t, Get (dtm w) clientID taskID = Ok q → heap w !! q = Some t →
     ∃ s, heap w' !! q = Some (setStatus s t)) ∧
  (∀ e, r = Err e → w' = w).
Proof.
  intros HU. destruct r as [[]|e].
  - destruct (UpdateStatus_Ok_inv _ _ _ _ _ HU)
      as (p & t & Hget & Hp & Hcfg & Hstore & Hptoc & Hheap).
    rewrite Hheap. unfold Get. repeat split; try done.
    + intros q Hq. apply lookup_insert_ne. congruence.
    + intros q t' Hq Hq'. rewrite Hget in Hq. injection Hq as <-.
      rewrite Hp in Hq'. injection Hq' as <-. rewrite lookup_insert_eq.
      destruct (String.eqb (Status t) _); [|by eexists].
      exists (Status t). by rewrite setStatus_same.
  - apply UpdateStatus_Err_inv in HU as ->. repeat split; try done.
    intros q t Hq Hq'. exists (Status t). by rewrite setStatus_same.
Qed.

Lemma UpdateStatus_frame_witness :
  let w := {| heap := {[ 1%positive := mkTask "c1" "p1" "t" "WAITING";
                         2%positive := mkTask "c2" "p2" "t" "WAITING" ]};
              dtm := {| cfg := cfg0;
                        dfgetTaskStore := {[ "c1@t" := 1%positive;
                                             "c2@t" := 2%positive ]};
                        ptoc := {[ "p1@t" := "c1"; "p2@t" := "c2" ]};
                        dtm_metrics := newMetrics |} |} in
  ∃ w', UpdateStatus "c1" "t" "RUNNING" w = Some (Ok tt, w') ∧
  cfg (dtm w') = cfg (dtm w) ∧
  dfgetTaskStore (dtm w') = dfgetTaskStore (dtm w) ∧
  ptoc (dtm w') = ptoc (dtm w) ∧
  (∀ q, Get (dtm w) "c1" "t" ≠ Ok q → heap w' !! q = heap w !! q) ∧
  (∀ q t, Get (dtm w) "c1" "t" = Ok q → heap w !! q = Some t →
     ∃ s, heap w' !! q = Some (setStatus s t)) ∧
  (∀ e, Ok tt = Err e → w' = w).
Proof.
  intros w. eexists. split; [vm_compute; reflexivity|].
  apply (UpdateStatus_frame w _ "c1" "t" "RUNNING" (Ok tt)).
  vm_compute. reflexivity.
Defined.

(** ** GetCIDAndTaskIDsByPeerID *)

Section prefix_scan_facts.
Implicit Types (m : Manager) (res acc : gmap string string).

(** One step of the scan on an entry of the peer index. *)
Lemma cidTaskRangeFunc_entry m prefixStr acc key cid :
ptoc m !! key = Some cid →
∃ taskID, lastSegment key = Some taskID ∧
cidTaskRangeFunc m prefixStr (Some acc) (key, cid) =
Some (if HasPrefix key prefixStr then <[cid := taskID]> acc else acc).
Proof.
intros Hkey. destruct (lastSegment_is_Some key) as [taskID Hlast].
exists taskID. split; [done|].
unfold cidTaskRangeFunc, SyncMap.GetAsString. simpl.
destruct (HasPrefix key prefixStr); simpl; [|done].
rewrite Hkey. cbv zeta. fold (lastSegment key). by rewrite Hlast.
Qed.

(** The scan of a list of entries of the peer index returns a map, in which
every binding is either one of [acc] or the client identity and last
segment of a matching entry, and in which every client identity bound
in [acc] or found in a matching entry is bound. *)
Lemma cidTaskRangeFunc_foldl m prefixStr (l : list (string * string)) acc :
(∀ key cid, (key, cid) ∈ l → ptoc m !! key = Some cid) →
∃ res, foldl (cidTaskRangeFunc m prefixStr) (Some acc) l = Some res ∧
(∀ cid taskID, res !! cid = Some taskID →
 acc !! cid = Some taskID ∨
 ∃ key, (key, cid) ∈ l ∧ HasPrefix key prefixStr = true ∧
        lastSegment key = Some taskID) ∧
(∀ cid, is_Some (acc !! cid) → is_Some (res !! cid)) ∧
(∀ key cid, (key, cid) ∈ l → HasPrefix key prefixStr = true →
 is_Some (res !! cid)).
Proof.
revert acc. induction l as [|[key cid] l IH]; intros acc Hl.
- exists acc. repeat split; [by left|done|].
intros ?? []%elem_of_nil.
- destruct (cidTaskRangeFunc_entry m prefixStr acc key cid)
as (taskID & Hlast & Hstep); [apply Hl; left|].
destruct (IH (if HasPrefix key prefixStr then <[cid := taskID]> acc
            else acc)) as (res & Hres & Hsound & Hkeep & Hfound).
{ intros ???. apply Hl. by right. }
exists res.
change (foldl ?f ?a ((key, cid) :: l)) with (foldl f (f a (key, cid)) l).
rewrite Hstep. split; [done|]. split; [|split].
+ intros cid' taskID' Hcid'.
destruct (Hsound _ _ Hcid') as [Hacc|(key' & Hin & Hpre & Hlast')].
* destruct (HasPrefix key prefixStr) eqn:Hpre; [|by left].
  apply lookup_insert_Some in Hacc as [[<- <-]|[_ Hacc]]; [|by left].
  right. exists key. split; [left|done].
* right. exists key'. split; [by right|done].
+ intros cid' Hcid'. apply Hkeep.
destruct (HasPrefix key prefixStr); [|done].
destruct (decide (cid = cid')) as [<-|Hne].
* rewrite lookup_insert_eq. by eexists.
* by rewrite lookup_insert_ne.
+ intros key' cid' Hin Hpre.
apply elem_of_cons in Hin as [[= -> ->]|Hin]; [|by eapply Hfound].
apply Hkeep. rewrite Hpre, lookup_insert_eq. by eexists.
Qed.
End prefix_scan_facts.

(** C9, as the code has it: for a task identity [b] without the join
    character, the last segment of the key of [(a, b)] is [b], whatever
    [a] is (it may hold the join character); and for every order of visit
    of the peer index, [GetCIDAndTaskIDsByPeerID] returns a map in which
    every binding is the client identity of a matching entry together with
    the last segment of its key, and every client identity of a matching
    entry is bound. *)
Theorem GetCIDAndTaskIDsByPeerID_lastSegment (m : Manager)
    (peerID a b : string) (order : list (string * string)) :
  freeOfJoinChar b = true →
  rangeOrder (ptoc m) order →
  lastSegment (generatePeerKey a b) = Some b ∧
  ∃ res, GetCIDAndTaskIDsByPeerID m peerID order = Some (Ok res) ∧
    (∀ cid taskID, res !! cid = Some taskID →
       ∃ key, ptoc m !! key = Some cid ∧
              HasPrefix key (peerID +:+ keyJoinChar) = true ∧
              lastSegment key = Some taskID) ∧
    (∀ key cid, ptoc m !! key = Some cid →
       HasPrefix key (peerID +:+ keyJoinChar) = true →
       is_Some (res !! cid)).
Proof.
  intros Hb Horder. split; [by apply lastSegment_generatePeerKey|].
  assert (∀ key cid, (key, cid) ∈ order ↔ ptoc m !! key = Some cid) as Hin.
  { intros key cid. unfold rangeOrder in Horder. rewrite Horder.
    apply elem_of_map_to_list. }
  destruct (cidTaskRangeFunc_foldl m (peerID +:+ keyJoinChar) order ∅)
    as (res & Hres & Hsound & _ & Hfound).
  { intros ??. apply Hin. }
  exists res. unfold GetCIDAndTaskIDsByPeerID. cbv zeta. rewrite Hres.
  split; [done|]. split.
  - intros cid taskID Hcid.
    destruct (Hsound _ _ Hcid) as [Hempty|(key & Hk & Hpre & Hlast)].
    + by rewrite lookup_empty in Hempty.
    + exists key. by rewrite <- Hin.
  - intros key cid Hk. apply Hfound. by apply Hin.
Qed.

Lemma GetCIDAndTaskIDsByPeerID_lastSegment_witness :
  let m := {| cfg := cfg0; dfgetTaskStore := {[ "c1@t1" := 1%positive ]};
              ptoc := {[ "p@x@t1" := "c1" ]};
              dtm_metrics := newMetrics |} in
  lastSegment (generatePeerKey "p@x" "t1") = Some "t1" ∧
  ∃ res, GetCIDAndTaskIDsByPeerID m "p" (map_to_list (ptoc m))
         = Some (Ok res) ∧
    (∀ cid taskID, res !! cid = Some taskID →
       ∃ key, ptoc m !! key = Some cid ∧
              HasPrefix key ("p" +:+ keyJoinChar) = true ∧
              lastSegment key = Some taskID) ∧
    (∀ key cid, ptoc m !! key = Some cid →
       HasPrefix key ("p" +:+ keyJoinChar) = true →
       is_Some (res !! cid)).
Proof.
  intros m.
  apply (GetCIDAndTaskIDsByPeerID_lastSegment m "p" "p@x" "t1"
           (map_to_list (ptoc m))); [reflexivity|].
  unfold rangeOrder. reflexivity.
Defined.

(** C9, as stated, fails for a task identity that holds the join
    character: the last segment of the key of [("p", "x@y")] is ["y"], and
    that is the task identity [GetCIDAndTaskIDsByPeerID] returns for it. *)
Lemma lastSegment_counterexample :
  "p" ≠ "" ∧ "x@y" ≠ "" ∧
  lastSegment (generatePeerKey "p" "x@y") ≠ Some "x@y" ∧
  GetCIDAndTaskIDsByPeerID
    {| cfg := cfg0; dfgetTaskStore := {[ "c1@x@y" := 1%positive ]};
       ptoc := {[ generatePeerKey "p" "x@y" := "c1" ]};
       dtm_metrics := newMetrics |}
    "p" [(generatePeerKey "p" "x@y", "c1")]
  = Some (Ok {[ "c1" := "y" ]}).
Proof.
  split; [done|]. split; [done|]. split; [vm_compute; discriminate|].
  vm_compute. reflexivity.
Qed.

(** ** GetCIDsByTaskID *)

Section suffix_scan_facts.
Implicit Types (m : Manager) (a b s : string).

Lemma string_app_inj_r a b s : a +:+ s = b +:+ s → a = b.
Proof.
revert b. induction a as [|x a IH]; intros [|y b] Heq; [done|..].
- apply (f_equal String.length) in Heq.
rewrite string_app_nil_l, string_app_cons in Heq. simpl in Heq.
rewrite string_length_app in Heq. lia.
- apply (f_equal String.length) in Heq.
rewrite string_app_nil_l, string_app_cons in Heq. simpl in Heq.
rewrite string_length_app in Heq. lia.
- rewrite !string_app_cons in Heq. injection Heq as -> Heq.
by rewrite (IH _ Heq).
Qed.

Lemma generatePeerKey_inj_peer a b s :
generatePeerKey a s = generatePeerKey b s → a = b.
Proof. apply string_app_inj_r. Qed.

Lemma generatePeerKey_HasSuffix a s :
HasSuffix (generatePeerKey a s) (keyJoinChar +:+ s) = true.
Proof. apply HasSuffix_app. Qed.

Lemma cidsRangeFunc_foldl m suffixString (l : list (string * string)) acc :
foldl (cidsRangeFunc m suffixString) acc l =
acc ++ (l ≫= cidsOfEntry m suffixString).
Proof.
revert acc. induction l as [|kv l IH]; intros acc.
- by rewrite app_nil_r.
- change (foldl ?f ?a (kv :: l)) with (foldl f (f a kv) l).
rewrite IH, bind_cons, app_assoc. f_equal.
unfold cidsRangeFunc, cidsOfEntry, SyncMap.GetAsString. cbv zeta.
destruct (HasSuffix kv.1 suffixString); simpl; [|by rewrite app_nil_r].
destruct (ptoc m !! kv.1); [done|by rewrite app_nil_r].
Qed.

Lemma bind_nil_Forall {A B} (f : A → list B) (l : list A) :
Forall (λ x, f x = []) l → l ≫= f = [].
Proof.
induction 1 as [|x l Hx _ IH]; [done|]. by rewrite bind_cons, Hx, IH.
Qed.
End suffix_scan_facts.

(** C8: in a registry whose peer index has no entry for the task identity
    [T], the [Add] of three acceptable records of task [T] with pairwise
    distinct peer identities succeeds, and afterwards, for every order of
    visit of the peer index, [GetCIDsByTaskID] returns a list that is a
    permutation of the three client identities. *)
Theorem GetCIDsByTaskID_three_records (w0 : World) (p1 p2 p3 : loc)
    (t1 t2 t3 : DfGetTask) (T : string) :
  heap w0 !! p1 = Some t1 → heap w0 !! p2 = Some t2 →
  heap w0 !! p3 = Some t3 →
  acceptable t1 → acceptable t2 → acceptable t3 →
  TaskID t1 = T → TaskID t2 = T → TaskID t3 = T →
  PeerID t1 ≠ PeerID t2 → PeerID t1 ≠ PeerID t3 → PeerID t2 ≠ PeerID t3 →
  (∀ key, HasSuffix key (keyJoinChar +:+ T) = true →
     ptoc (dtm w0) !! key = None) →
  ∃ w, runOps [OpAdd p1; OpAdd p2; OpAdd p3] w0 = Some w ∧
    ∀ order, rangeOrder (ptoc (dtm w)) order →
      ∃ cids, GetCIDsByTaskID (dtm w) T order = Ok cids ∧
              cids ≡ₚ [CID t1; CID t2; CID t3].
Proof.
  intros Hp1 Hp2 Hp3 (HP1 & HE1 & HC1 & HT1) (HP2 & HE2 & HC2 & HT2)
    (HP3 & HE3 & HC3 & HT3) HT1' HT2' HT3' H12 H13 H23 Hfresh.
  assert (p1 ≠ p2) as Hp12 by congruence.
  assert (p1 ≠ p3) as Hp13 by congruence.
  assert (p2 ≠ p3) as Hp23 by congruence.
  eexists. split.
  { simpl. rewrite (Add_Ok _ _ _ Hp1 HP1 HE1 HC1 HT1).
    rewrite (Add_Ok _ _ t2); [|simpl; by rewrite lookup_insert_ne|done..].
    rewrite (Add_Ok _ _ t3);
      [|simpl; by rewrite !lookup_insert_ne|done..].
    reflexivity. }
  simpl. intros order Horder. unfold rangeOrder in Horder.
  set (pt := <[peerKeyOf t3:=CID t3]>
               (<[peerKeyOf t2:=CID t2]>
                  (<[peerKeyOf t1:=CID t1]> (ptoc (dtm w0))))) in *.
  assert (∀ t, TaskID t = T →
            HasSuffix (peerKeyOf t) (keyJoinChar +:+ T) = true) as Hsuf.
  { intros t <-. apply generatePeerKey_HasSuffix. }
  assert (peerKeyOf t1 ≠ peerKeyOf t2) as Hk12.
  { unfold peerKeyOf. rewrite HT1', HT2'.
    intros ?%generatePeerKey_inj_peer. done. }
  assert (peerKeyOf t1 ≠ peerKeyOf t3) as Hk13.
  { unfold peerKeyOf. rewrite HT1', HT3'.
    intros ?%generatePeerKey_inj_peer. done. }
  assert (peerKeyOf t2 ≠ peerKeyOf t3) as Hk23.
  { unfold peerKeyOf. rewrite HT2', HT3'.
    intros ?%generatePeerKey_inj_peer. done. }
  assert (order ≡ₚ (peerKeyOf t3, CID t3) :: (peerKeyOf t2, CID t2)
                   :: (peerKeyOf t1, CID t1) :: map_to_list (ptoc (dtm w0)))
    as Hperm.
  { rewrite Horder. unfold pt.
    rewrite map_to_list_insert.
    2:{ rewrite !lookup_insert_ne by done. apply Hfresh, Hsuf, HT3'. }
    rewrite map_to_list_insert.
    2:{ rewrite lookup_insert_ne by done. apply Hfresh, Hsuf, HT2'. }
    rewrite map_to_list_insert; [done|]. apply Hfresh, Hsuf, HT1'. }
  eexists. split; [reflexivity|].
  rewrite cidsRangeFunc_foldl, app_nil_l, Hperm, !bind_cons.
  rewrite bind_nil_Forall, app_nil_r.
  - unfold cidsOfEntry. simpl. rewrite !Hsuf by done. unfold pt.
    rewrite lookup_insert_eq.
    rewrite lookup_insert_ne, lookup_insert_eq by done.
    rewrite !lookup_insert_ne, lookup_insert_eq by done.
    simpl. apply Permutation_rev.
  - apply Forall_forall. intros [key cid] Hin%elem_of_map_to_list.
    unfold cidsOfEntry. simpl.
    destruct (HasSuffix key (keyJoinChar +:+ T)) eqn:Hkey; [|done].
    by rewrite (Hfresh _ Hkey) in Hin.
Qed.

Lemma GetCIDsByTaskID_three_records_witness :
  let w0 := initWorld cfg0 {[ 1%positive := mkTask "c1" "p1" "t" "";
                              2%positive := mkTask "c2" "p2" "t" "";
                              3%positive := mkTask "c3" "p3" "t" "" ]} in
  ∃ w, runOps [OpAdd 1; OpAdd 2; OpAdd 3] w0 = Some w ∧
    ∀ order, rangeOrder (ptoc (dtm w)) order →
      ∃ cids, GetCIDsByTaskID (dtm w) "t" order = Ok cids ∧
              cids ≡ₚ ["c1"; "c2"; "c3"].
Proof.
  intros w0.
  apply (GetCIDsByTaskID_three_records w0 1 2 3
           (mkTask "c1" "p1" "t" "") (mkTask "c2" "p2" "t" "")
           (mkTask "c3" "p3" "t" "") "t");
    try reflexivity; try done.
Defined.

(** ** The lockstep of the two stores *)

Section lockstep_facts.
Implicit Types (w : World) (t x : DfGetTask) (k key : string).

Lemma sameIds_peerKeyOf x y : sameIds x y → peerKeyOf x = peerKeyOf y.
Proof. intros (_ & HP & HT). unfold peerKeyOf. by rewrite HP, HT. Qed.

Lemma sameIds_defaultStatus t : sameIds (defaultStatus t) t.
Proof. unfold defaultStatus. by destruct (IsEmptyStr (Status t)). Qed.

Lemma liveRecord_inj w k x y : liveRecord w k x → liveRecord w k y → x = y.
Proof. intros (p & Hk & Hp) (q & Hk' & Hq). congruence. Qed.

(** A fresh manager is consistent, whatever the heap. *)
Lemma Consistent_init c h : Consistent (initWorld c h).
Proof.
split; [| |split].
- intros k p Hk. destruct (lookup_empty_Some (M := gmap string) k p Hk).
- intros k1 k2 t1 t2 (p & Hk & _).
destruct (lookup_empty_Some (M := gmap string) k1 p Hk).
- intros k t (p & Hk & _).
destruct (lookup_empty_Some (M := gmap string) k p Hk).
- intros pk c' Hpk.
destruct (lookup_empty_Some (M := gmap string) pk c' Hpk).
Qed.

(** Consistency is about the heap, the primary store and the peer index
only. *)
Lemma Consistent_ext w w' :
heap w' = heap w →
dfgetTaskStore (dtm w') = dfgetTaskStore (dtm w) →
ptoc (dtm w') = ptoc (dtm w) →
Consistent w → Consistent w'.
Proof.
destruct w as [h [c s pt ms]], w' as [h' [c' s' pt' ms']]. simpl.
intros -> -> -> [HK HA [HI HO]]. split; [exact HK|exact HA|].
split; [exact HI|exact HO].
Qed.

(** Writing to a record a record of the same identities. *)
Lemma Consistent_heap_update w p t x :
Consistent w → heap w !! p = Some t → sameIds x t →
Consistent {| heap := <[p := x]> (heap w); dtm := dtm w |}.
Proof.
intros [HK HA [HI HO]] Hp Hx.
set (w1 := {| heap := <[p := x]> (heap w); dtm := dtm w |}).
assert (∀ k y, liveRecord w1 k y →
      ∃ y0, liveRecord w k y0 ∧ sameIds y y0) as Hback.
{ intros k y (q & Hk & Hq). simpl in Hk, Hq.
destruct (decide (p = q)) as [<-|Hne].
- rewrite lookup_insert_eq in Hq. injection Hq as <-.
exists t. split; [by exists p|done].
- rewrite lookup_insert_ne in Hq by done.
exists y. split; [by exists q|done]. }
assert (∀ k y0, liveRecord w k y0 →
      ∃ y, liveRecord w1 k y ∧ sameIds y y0) as Hforth.
{ intros k y0 (q & Hk & Hq).
destruct (decide (p = q)) as [<-|Hne].
- rewrite Hp in Hq. injection Hq as <-.
exists x. split; [|done]. exists p. simpl.
by rewrite lookup_insert_eq.
- exists y0. split; [|done]. exists q. simpl.
by rewrite lookup_insert_ne. }
split; [| |split].
- intros k q Hk. simpl in Hk. destruct (HK _ _ Hk) as (y0 & Hq & Hkey).
destruct (Hforth k y0) as (y & (q' & Hk' & Hq') & HC & _ & HT);
[by exists q|].
simpl in Hk'. rewrite Hk in Hk'. injection Hk' as <-.
exists y. split; [done|]. by rewrite HC, HT.
- intros k1 k2 y1 y2 (z1 & Hz1 & Hs1)%Hback (z2 & Hz2 & Hs2)%Hback Heq.
apply (HA _ _ _ _ Hz1 Hz2).
by rewrite <- (sameIds_peerKeyOf _ _ Hs1), <- (sameIds_peerKeyOf _ _ Hs2).
- intros k y (z & Hz & Hs)%Hback.
rewrite (sameIds_peerKeyOf _ _ Hs). destruct Hs as (-> & _).
exact (HI _ _ Hz).
- intros pk c Hpk. destruct (HO _ _ Hpk) as (k & y0 & Hy0 & <- & <-).
destruct (Hforth _ _ Hy0) as (y & Hy & Hs).
exists k, y. split; [done|].
split; [by apply sameIds_peerKeyOf|by destruct Hs].
Qed.
End lockstep_facts.

Section lockstep_steps.
Implicit Types (w : World) (t x : DfGetTask) (k key : string).

(** Filing the record at [p] in both stores. *)
Lemma Consistent_insert w p t key c ms :
Consistent w → heap w !! p = Some t →
generateKey (CID t) (TaskID t) = Ok key →
(∀ k x, liveRecord w k x → (k = key ↔ peerKeyOf x = peerKeyOf t)) →
Consistent
{| heap := heap w;
 dtm := {| cfg := c;
           dfgetTaskStore := <[key := p]> (dfgetTaskStore (dtm w));
           ptoc := <[peerKeyOf t := CID t]> (ptoc (dtm w));
           dtm_metrics := ms |} |}.
Proof.
intros [HK HA [HI HO]] Hp Hkey Hcompat.
set (w' := {| heap := heap w; dtm := _ |}).
assert (liveRecord w' key t) as Hnew.
{ exists p. simpl. by rewrite lookup_insert_eq. }
assert (∀ k x, liveRecord w' k x →
      (k = key ∧ x = t) ∨ (k ≠ key ∧ liveRecord w k x)) as Hback.
{ intros k x (q & Hk & Hq). simpl in Hk, Hq.
destruct (decide (key = k)) as [<-|Hne].
- rewrite lookup_insert_eq in Hk. injection Hk as <-. left.
split; [done|congruence].
- rewrite lookup_insert_ne in Hk by done. right.
split; [done|by exists q]. }
assert (∀ k x, k ≠ key → liveRecord w k x → liveRecord w' k x) as Hforth.
{ intros k x Hne (q & Hk & Hq). exists q. simpl.
by rewrite lookup_insert_ne. }
split; [| |split].
- intros k q Hk. simpl in Hk. simpl.
destruct (decide (key = k)) as [<-|Hne].
+ rewrite lookup_insert_eq in Hk. injection Hk as <-. by exists t.
+ rewrite lookup_insert_ne in Hk by done. by apply HK.
- intros k1 k2 x1 x2 [[-> ->]|[Hn1 H1]]%Hback [[-> ->]|[Hn2 H2]]%Hback Heq.
+ done.
+ symmetry. by apply (Hcompat _ _ H2).
+ by apply (Hcompat _ _ H1).
+ by apply (HA _ _ _ _ H1 H2).
- intros k x [[-> ->]|[Hne Hx]]%Hback; simpl.
+ by rewrite lookup_insert_eq.
+ rewrite lookup_insert_ne; [by apply (HI _ _ Hx)|].
intros Heq. apply Hne. by apply (Hcompat _ _ Hx).
- intros pk c' Hpk. simpl in Hpk.
destruct (decide (peerKeyOf t = pk)) as [<-|Hne].
+ rewrite lookup_insert_eq in Hpk. injection Hpk as <-.
by exists key, t.
+ rewrite lookup_insert_ne in Hpk by done.
destruct (HO _ _ Hpk) as (k & x & Hx & Hpkx & HCx).
exists k, x. split; [|done]. apply Hforth; [|done].
intros ->. apply Hne. rewrite <- Hpkx. symmetry.
by apply (Hcompat _ _ Hx).
Qed.

(** Removing the record under [key] from both stores. *)
Lemma Consistent_delete w p t key c ms :
Consistent w → dfgetTaskStore (dtm w) !! key = Some p →
heap w !! p = Some t →
Consistent
{| heap := heap w;
 dtm := {| cfg := c;
           dfgetTaskStore := delete key (dfgetTaskStore (dtm w));
           ptoc := delete (peerKeyOf t) (ptoc (dtm w));
           dtm_metrics := ms |} |}.
Proof.
intros [HK HA [HI HO]] Hkey Hp.
set (w' := {| heap := heap w; dtm := _ |}).
assert (liveRecord w key t) as Hold by (by exists p).
assert (∀ k x, liveRecord w' k x ↔ k ≠ key ∧ liveRecord w k x) as Hlive.
{ intros k x. split.
- intros (q & Hk & Hq). simpl in Hk, Hq.
apply lookup_delete_Some in Hk as [Hne Hk].
split; [done|by exists q].
- intros [Hne (q & Hk & Hq)]. exists q. simpl.
by rewrite lookup_delete_ne. }
split; [| |split].
- intros k q Hk. simpl in Hk. simpl.
apply lookup_delete_Some in Hk as [_ Hk]. by apply HK.
- intros k1 k2 x1 x2 [_ H1]%Hlive [_ H2]%Hlive.
by apply (HA _ _ _ _ H1 H2).
- intros k x [Hne Hx]%Hlive. simpl.
rewrite lookup_delete_ne; [by apply (HI _ _ Hx)|].
intros Heq. apply Hne. by apply (HA _ _ _ _ Hx Hold).
- intros pk c' Hpk. simpl in Hpk.
apply lookup_delete_Some in Hpk as [Hne Hpk].
destruct (HO _ _ Hpk) as (k & x & Hx & Hpkx & HCx).
exists k, x. split; [|done]. apply Hlive. split; [|done].
intros ->. apply Hne. by rewrite (liveRecord_inj _ _ _ _ Hold Hx).
Qed.

Lemma addCompatible_spec w p t key :
addCompatible w p = true → heap w !! p = Some t →
generateKey (CID t) (TaskID t) = Ok key →
∀ k x, liveRecord w k x → (k = key ↔ peerKeyOf x = peerKeyOf t).
Proof.
unfold addCompatible. intros Hc Hp Hkey k x (q & Hk & Hq).
rewrite Hp, Hkey in Hc. rewrite forallb_forall in Hc.
specialize (Hc (k, q)). simpl in Hc. rewrite Hq in Hc.
assert (In (k, q) (map_to_list (dfgetTaskStore (dtm w)))) as Hin.
{ apply list_elem_of_In. by apply elem_of_map_to_list. }
apply Hc, Bool.eqb_prop in Hin. rewrite <- !String.eqb_eq. by rewrite Hin.
Qed.
End lockstep_steps.

Section lockstep_ops.
Implicit Types (w : World) (t x : DfGetTask) (r : result unit).

Lemma Consistent_Add w p r w' :
Consistent w → addCompatible w p = true →
Add p w = Some (r, w') → Consistent w'.
Proof.
intros HC Hcompat HAdd. destruct r as [[]|e].
2:{ by apply Add_Err_inv in HAdd as ->. }
destruct (Add_Ok_inv _ _ _ HAdd) as (t & Hp & HPath & HPeer & HCID & HTask).
rewrite (Add_Ok _ _ _ Hp HPath HPeer HCID HTask) in HAdd.
injection HAdd as <-.
pose proof (generateKey_Ok _ _ HCID HTask) as Hkey.
pose proof (addCompatible_spec _ _ _ _ Hcompat Hp Hkey) as Hspec.
pose proof (sameIds_defaultStatus t) as Hs.
pose proof (Consistent_heap_update _ _ _ _ HC Hp Hs) as HC1.
set (w1 := {| heap := <[p := defaultStatus t]> (heap w); dtm := dtm w |})
in HC1.
assert (heap w1 !! p = Some (defaultStatus t)) as Hp1
by (simpl; by rewrite lookup_insert_eq).
assert (generateKey (CID (defaultStatus t)) (TaskID (defaultStatus t))
    = Ok (CID t +:+ keyJoinChar +:+ TaskID t)) as Hkey1.
{ destruct Hs as (-> & _ & ->). done. }
eapply Consistent_ext;
[| | |apply (Consistent_insert w1 p (defaultStatus t) _ (cfg (dtm w))
            (dtm_metrics (dtm w)) HC1 Hp1 Hkey1)].
- done.
- done.
- simpl. rewrite (sameIds_peerKeyOf _ _ Hs). by destruct Hs as (-> & _).
- intros k x (q & Hk & Hq). simpl in Hk, Hq.
rewrite (sameIds_peerKeyOf _ _ Hs).
destruct (decide (p = q)) as [<-|Hne].
+ rewrite lookup_insert_eq in Hq. injection Hq as <-.
rewrite (sameIds_peerKeyOf _ _ Hs). apply (Hspec k t). by exists p.
+ rewrite lookup_insert_ne in Hq by done. apply Hspec. by exists q.
Qed.

Lemma Delete_Ok_inv w clientID taskID w' :
Delete clientID taskID w = Some (Ok tt, w') →
∃ p t, getDfgetTask (dtm w) clientID taskID = Ok p ∧
   heap w !! p = Some t.
Proof.
unfold Delete. cbv zeta.
destruct (generateKey clientID taskID); [|done].
destruct (getDfgetTask (dtm w) clientID taskID) as [p|]; [|done].
destruct (heap w !! p) as [t|] eqn:Hp; [|done]. intros _. by exists p, t.
Qed.

Lemma Consistent_Delete w clientID taskID r w' :
Consistent w →
Delete clientID taskID w = Some (r, w') → Consistent w'.
Proof.
intros HC HDel. destruct r as [[]|e].
2:{ by apply Delete_Err_inv in HDel as ->. }
destruct (Delete_Ok_inv _ _ _ _ HDel) as (p & t & Hget & Hp).
rewrite (Delete_Ok _ _ _ _ _ Hget Hp) in HDel. injection HDel as <-.
apply getDfgetTask_Ok_inv in Hget as (key & Hkey & Hstore).
apply generateKey_Ok_inv in Hkey as (_ & _ & ->).
by apply (Consistent_delete w p t).
Qed.

Lemma Consistent_UpdateStatus w clientID taskID status r w' :
Consistent w →
UpdateStatus clientID taskID status w = Some (r, w') → Consistent w'.
Proof.
intros HC HU. destruct r as [[]|e].
2:{ by apply UpdateStatus_Err_inv in HU as ->. }
destruct (UpdateStatus_Ok_inv _ _ _ _ _ HU)
as (p & t & Hget & Hp & Hcfg & Hstore & Hptoc & Hheap).
eapply Consistent_ext;
[| | |apply (Consistent_heap_update w p t
            (if String.eqb (Status t) DfGetTaskStatusSUCCESS
             then t else setStatus status t) HC Hp)]; try done.
by destruct (String.eqb (Status t) _).
Qed.

(** Every admissible sequence of operations keeps a consistent state
consistent. *)
Lemma Consistent_runOps ops w w' :
Consistent w → admissible ops w = true →
runOps ops w = Some w' → Consistent w'.
Proof.
revert w. induction ops as [|o ops IH]; intros w HC Hadm Hrun.
- simpl in Hrun. by injection Hrun as <-.
- simpl in Hadm, Hrun. apply andb_true_iff in Hadm as [Ho Hadm].
destruct (runOp o w) as [[r w1]|] eqn:Hop; [|done].
apply (IH w1); [|done..].
destruct o as [p|c t|c t s]; simpl in Hop.
+ by apply (Consistent_Add _ _ _ _ HC Ho Hop).
+ by apply (Consistent_Delete _ _ _ _ _ HC Hop).
+ by apply (Consistent_UpdateStatus _ _ _ _ _ _ HC Hop).
Qed.
End lockstep_ops.

(** ** No panic *)

Section progress.
Implicit Types (w : World) (t : DfGetTask) (r : result unit).

Lemma insert_allocated (h : gmap loc DfGetTask) p t x q :
h !! p = Some t → is_Some (<[p := x]> h !! q) ↔ is_Some (h !! q).
Proof.
intros Hp. destruct (decide (p = q)) as [<-|Hne].
- rewrite lookup_insert_eq, Hp. split; by eexists.
- by rewrite lookup_insert_ne.
Qed.

(** No operation allocates or frees a record. *)
Lemma runOp_allocated o w r w' q :
runOp o w = Some (r, w') →
is_Some (heap w' !! q) ↔ is_Some (heap w !! q).
Proof.
intros Hop. destruct o as [p|c tid|c tid s]; simpl in Hop.
- destruct r as [[]|e]; [|by apply Add_Err_inv in Hop as ->].
destruct (Add_Ok_inv _ _ _ Hop) as (t & Hp & HPath & HPeer & HC & HT).
rewrite (Add_Ok _ _ _ Hp HPath HPeer HC HT) in Hop.
injection Hop as <-. simpl. by apply (insert_allocated _ _ t).
- destruct r as [[]|e]; [|by apply Delete_Err_inv in Hop as ->].
destruct (Delete_Ok_inv _ _ _ _ Hop) as (p & t & Hget & Hp).
rewrite (Delete_Ok _ _ _ _ _ Hget Hp) in Hop. by injection Hop as <-.
- destruct r as [[]|e]; [|by apply UpdateStatus_Err_inv in Hop as ->].
destruct (UpdateStatus_Ok_inv _ _ _ _ _ Hop)
  as (p & t & _ & Hp & _ & _ & _ & ->).
by apply (insert_allocated _ _ t).
Qed.

(** In a state whose stored pointers all hold a record, an operation
returns, provided the pointer given to [Add] holds a record. *)
Lemma runOp_returns o w :
storeKeyed w →
match o with OpAdd p => is_Some (heap w !! p) | _ => True end →
is_Some (runOp o w).
Proof.
intros HK Ho. destruct o as [p|c tid|c tid s]; simpl.
- destruct Ho as [t Hp]. unfold Add. rewrite Hp.
destruct (IsEmptyStr (Path t)); [by eexists|].
destruct (IsEmptyStr (PeerID t)); [by eexists|].
destruct (generateKey (CID t) (TaskID t)); by eexists.
- unfold Delete. cbv zeta.
destruct (generateKey c tid) as [key|]; [|by eexists].
destruct (getDfgetTask (dtm w) c tid) as [p|] eqn:Hget; [|by eexists].
apply getDfgetTask_Ok_inv in Hget as (key' & _ & Hstore).
destruct (HK _ _ Hstore) as (t & -> & _).
destruct (Store.Delete key _). by eexists.
- unfold UpdateStatus. cbv zeta.
destruct (getDfgetTask (dtm w) c tid) as [p|] eqn:Hget; [|by eexists].
apply getDfgetTask_Ok_inv in Hget as (key' & _ & Hstore).
destruct (HK _ _ Hstore) as (t & -> & _).
destruct (negb _); by eexists.
Qed.

(** From a consistent state, an admissible sequence of operations whose
[Add]s are given allocated pointers runs to the end. *)
Lemma runOps_returns ops w :
Consistent w → admissible ops w = true →
(∀ p, OpAdd p ∈ ops → is_Some (heap w !! p)) →
is_Some (runOps ops w).
Proof.
revert w. induction ops as [|o ops IH]; intros w HC Hadm Hin.
- by eexists.
- simpl in Hadm. simpl. apply andb_true_iff in Hadm as [Ho Hadm].
destruct (runOp_returns o w) as [[r w1] Hop].
{ by destruct HC. }
{ destruct o; [|done..]. apply Hin. left. }
rewrite Hop in Hadm |- *. apply IH; [|done|].
+ destruct o as [p|c t|c t s]; simpl in Hop.
  * by apply (Consistent_Add _ _ _ _ HC Ho Hop).
  * by apply (Consistent_Delete _ _ _ _ _ HC Hop).
  * by apply (Consistent_UpdateStatus _ _ _ _ _ _ HC Hop).
+ intros p Hp. apply (runOp_allocated _ _ _ _ _ Hop), Hin. by right.
Qed.
End progress.

(** C3, as the code has it: from a fresh manager, after every sequence of
    Add, Delete and UpdateStatus in which each Add is compatible with the
    state it runs in (a live record shares the client key of the new
    record if and only if it shares its peer key), every live record has
    the peer-index entry of its own peer and task identities, holding its
    client identity; no two live records share an entry; and every entry of
    the peer index belongs to a live record. *)
Theorem Lockstep_invariant (c : Config) (h : gmap loc DfGetTask)
    (ops : list Op) (w : World) :
  admissible ops (initWorld c h) = true →
  runOps ops (initWorld c h) = Some w →
  Lockstep w ∧ entriesApart w.
Proof.
  intros Hadm Hrun.
  destruct (Consistent_runOps ops _ _ (Consistent_init c h) Hadm Hrun)
    as [_ HA HL].
  done.
Qed.

Lemma Lockstep_invariant_witness :
  ∃ w, runOps [OpAdd 1; OpAdd 2; OpUpdateStatus "c1" "t" "RUNNING";
               OpDelete "c2" "t"; OpAdd 1]
         (initWorld cfg0 {[ 1%positive := mkTask "c1" "p1" "t" "";
                            2%positive := mkTask "c2" "p2" "t" "" ]})
       = Some w ∧ Lockstep w ∧ entriesApart w.
Proof.
  eexists. split; [vm_compute; reflexivity|].
  apply (Lockstep_invariant cfg0
           {[ 1%positive := mkTask "c1" "p1" "t" "";
              2%positive := mkTask "c2" "p2" "t" "" ]}
           [OpAdd 1; OpAdd 2; OpUpdateStatus "c1" "t" "RUNNING";
            OpDelete "c2" "t"; OpAdd 1]);
    vm_compute; reflexivity.
Defined.

(** C3, as stated, fails in both directions.  Two records of the same peer
    and task but of two clients share one entry of the peer index, and the
    [Delete] of the second takes it from the first, which stays live.  Two
    records of the same client and task but of two peers share one key of
    the primary store, and the [Add] of the second leaves the entry of the
    first in the peer index with no live record. *)
Lemma Lockstep_counterexample :
  (∃ w, runOps [OpAdd 1; OpAdd 2; OpDelete "c2" "t"]
          (initWorld cfg0 {[ 1%positive := mkTask "c1" "p" "t" "";
                             2%positive := mkTask "c2" "p" "t" "" ]})
        = Some w ∧ ¬ Lockstep w) ∧
  (∃ w, runOps [OpAdd 1; OpAdd 2]
          (initWorld cfg0 {[ 1%positive := mkTask "c" "p1" "t" "";
                             2%positive := mkTask "c" "p2" "t" "" ]})
        = Some w ∧ ¬ Lockstep w).
Proof.
  split.
  - eexists. split; [vm_compute; reflexivity|]. intros [HI _].
    specialize (HI "c1@t" (mkTask "c1" "p" "t" "WAITING")).
    assert (None = Some "c1" :> option string) as Habs; [|done].
    apply HI. exists 1%positive. split; vm_compute; reflexivity.
  - eexists. split; [vm_compute; reflexivity|]. intros [_ HO].
    destruct (HO "p1@t" "c") as (k & x & (q & Hk & Hq) & Hpk & _);
      [vm_compute; reflexivity|].
    apply elem_of_map_to_list in Hk.
    match type of Hk with
    | _ ∈ ?l => let l' := eval vm_compute in l in change l with l' in Hk
    end.
    apply elem_of_cons in Hk as [[= -> ->]|Hk]; [|by apply elem_of_nil in Hk].
    vm_compute in Hq. injection Hq as <-. vm_compute in Hpk. discriminate.
Qed.

(** * Further properties of the manager *)

(** ** Errors on empty or unknown identities *)

(** X1: with an empty clientID or taskID, [Get] fails with EmptyValue, and
    [Delete] and [UpdateStatus] fail with EmptyValue and return the state
    they were given, whatever the registry holds. *)
Theorem empty_identity_rejected (w : World) (clientID taskID status : string) :
  clientID = "" ∨ taskID = "" →
  failsWith (Get (dtm w) clientID taskID) ErrEmptyValue ∧
  (∃ e, Delete clientID taskID w = Some (Err e, w) ∧
        cause e = ErrEmptyValue) ∧
  (∃ e, UpdateStatus clientID taskID status w = Some (Err e, w) ∧
        cause e = ErrEmptyValue).
Proof.
  intros Hempty.
  destruct (generateKey_Err _ _ Hempty) as (e & Hkey & He).
  assert (getDfgetTask (dtm w) clientID taskID = Err e) as Hget
    by (unfold getDfgetTask; by rewrite Hkey).
  split; [|split].
  - unfold Get. by rewrite Hget.
  - exists e. unfold Delete. cbv zeta. by rewrite Hkey.
  - exists e. unfold UpdateStatus. cbv zeta. by rewrite Hget.
Qed.

Lemma empty_identity_rejected_witness :
  let w := initWorld cfg0 {[ 1%positive := mkTask "c1" "p1" "t" "" ]} in
  failsWith (Get (dtm w) "c1" "") ErrEmptyValue ∧
  (∃ e, Delete "c1" "" w = Some (Err e, w) ∧ cause e = ErrEmptyValue) ∧
  (∃ e, UpdateStatus "c1" "" "RUNNING" w = Some (Err e, w) ∧
        cause e = ErrEmptyValue).
Proof.
  intros w. apply (empty_identity_rejected w "c1" "" "RUNNING").
  right. reflexivity.
Defined.

(** X2: for a non-empty clientID and taskID under which the primary store
    holds nothing, [UpdateStatus] fails with NotFound and returns the state
    it was given: no record, no gauge and no counter is touched. *)
Theorem UpdateStatus_not_found (w : World) (clientID taskID status : string) :
  clientID ≠ "" → taskID ≠ "" →
  dfgetTaskStore (dtm w) !! (clientID +:+ keyJoinChar +:+ taskID) = None →
  ∃ e, UpdateStatus clientID taskID status w = Some (Err e, w) ∧
       cause e = ErrDataNotFound.
Proof.
  intros Hc Ht Hnone. unfold UpdateStatus. cbv zeta.
  rewrite (getDfgetTask_lookup _ _ _ Hc Ht), Hnone. by eexists.
Qed.

Lemma UpdateStatus_not_found_witness :
  let w := initWorld cfg0 {[ 1%positive := mkTask "c1" "p1" "t" "" ]} in
  ∃ e, UpdateStatus "c1" "t" "FAILED" w = Some (Err e, w) ∧
       cause e = ErrDataNotFound.
Proof.
  intros w. apply (UpdateStatus_not_found w "c1" "t" "FAILED"); [done|done|].
  vm_compute. reflexivity.
Defined.

(** ** The effects of UpdateStatus *)

Section update_effects.
Implicit Types (w : World) (t : DfGetTask).

Lemma vecValue_vecInc_ne `{Countable L} (l l' : L) (v : gmap L Z) :
l ≠ l' → vecValue (vecInc l v) l' = vecValue v l'.
Proof. intros Hne. unfold vecValue, vecInc. by rewrite lookup_insert_ne. Qed.

Lemma vecValue_vecDec_ne `{Countable L} (l l' : L) (v : gmap L Z) :
l ≠ l' → vecValue (vecDec l v) l' = vecValue v l'.
Proof. intros Hne. unfold vecValue, vecDec. by rewrite lookup_insert_ne. Qed.

Lemma vecValue_vecInc_decide `{Countable L} (l l' : L) (v : gmap L Z) :
vecValue (vecInc l v) l' =
(vecValue v l' + if decide (l' = l) then 1 else 0)%Z.
Proof.
case_decide as Hl.
- subst. apply vecValue_vecInc.
- rewrite vecValue_vecInc_ne by done. lia.
Qed.

Lemma vecValue_vecDec_decide `{Countable L} (l l' : L) (v : gmap L Z) :
vecValue (vecDec l v) l' =
(vecValue v l' - if decide (l' = l) then 1 else 0)%Z.
Proof.
case_decide as Hl.
- subst. apply vecValue_vecDec.
- rewrite vecValue_vecDec_ne by done. lia.
Qed.

(** What [UpdateStatus] leaves when the record is not in the status
  SUCCESS. *)
Lemma UpdateStatus_Ok w clientID taskID status dfgetTask t :
getDfgetTask (dtm w) clientID taskID = Ok dfgetTask →
heap w !! dfgetTask = Some t →
Status t ≠ DfGetTaskStatusSUCCESS →
UpdateStatus clientID taskID status w =
Some (Ok tt,
      {| heap := <[dfgetTask := setStatus status t]> (heap w);
         dtm :=
           {| cfg := cfg (dtm w);
              dfgetTaskStore := dfgetTaskStore (dtm w);
              ptoc := ptoc (dtm w);
              dtm_metrics :=
                {| dfgetTasks :=
                     vecInc (CallSystem t, status)
                       (vecDec (CallSystem t, Status t)
                          (dfgetTasks (dtm_metrics (dtm w))));
                   dfgetTasksRegisterCount :=
                     dfgetTasksRegisterCount (dtm_metrics (dtm w));
                   dfgetTasksFailCount :=
                     if String.eqb status DfGetTaskStatusFAILED
                     then vecInc (CallSystem t)
                            (dfgetTasksFailCount (dtm_metrics (dtm w)))
                     else dfgetTasksFailCount (dtm_metrics (dtm w)) |}
           |} |}).
Proof.
intros Hget Hp HS. unfold UpdateStatus. cbv zeta. rewrite Hget, Hp.
apply String.eqb_neq in HS. by rewrite HS.
Qed.
End update_effects.

(** X3: when the stored record is not in the status SUCCESS,
    [UpdateStatus] succeeds and the new status is visible to the next
    [Get]: it returns the same pointer, whose record now has the new status
    and is otherwise as it was. *)
Theorem UpdateStatus_then_Get (w : World) (clientID taskID status : string)
    (dfgetTask : loc) (t : DfGetTask) :
  Get (dtm w) clientID taskID = Ok dfgetTask →
  heap w !! dfgetTask = Some t →
  Status t ≠ DfGetTaskStatusSUCCESS →
  ∃ w', UpdateStatus clientID taskID status w = Some (Ok tt, w') ∧
        Get (dtm w') clientID taskID = Ok dfgetTask ∧
        heap w' !! dfgetTask = Some (setStatus status t).
Proof.
  intros Hget Hp HS. eexists.
  split; [exact (UpdateStatus_Ok _ _ _ status _ _ Hget Hp HS)|].
  split; [exact Hget|]. simpl. by rewrite lookup_insert_eq.
Qed.

Lemma UpdateStatus_then_Get_witness :
  let w := {| heap := {[ 1%positive := mkTask "c1" "p1" "t" "WAITING" ]};
              dtm := {| cfg := cfg0;
                        dfgetTaskStore := {[ "c1@t" := 1%positive ]};
                        ptoc := {[ "p1@t" := "c1" ]};
                        dtm_metrics := newMetrics |} |} in
  ∃ w', UpdateStatus "c1" "t" "RUNNING" w = Some (Ok tt, w') ∧
        Get (dtm w') "c1" "t" = Ok 1%positive ∧
        heap w' !! 1%positive = Some (mkTask "c1" "p1" "t" "RUNNING").
Proof.
  intros w.
  apply (UpdateStatus_then_Get w "c1" "t" "RUNNING" 1
           (mkTask "c1" "p1" "t" "WAITING"));
    [vm_compute; reflexivity|vm_compute; reflexivity|done].
Defined.

(** X4: when the stored record is not in the status SUCCESS,
    [UpdateStatus] moves one unit of the gauge from the label of the old
    status to the label of the new one: every label gains one if it is the
    new label and loses one if it is the old label (so nothing moves when
    they are the same), and the registration counter is not touched. *)
Theorem UpdateStatus_gauge (w w' : World) (clientID taskID status : string)
    (dfgetTask : loc) (t : DfGetTask) :
  Get (dtm w) clientID taskID = Ok dfgetTask →
  heap w !! dfgetTask = Some t →
  Status t ≠ DfGetTaskStatusSUCCESS →
  UpdateStatus clientID taskID status w = Some (Ok tt, w') →
  (∀ l, vecValue (dfgetTasks (dtm_metrics (dtm w'))) l =
        (vecValue (dfgetTasks (dtm_metrics (dtm w))) l
         + (if decide (l = (CallSystem t, status)) then 1 else 0)
         - (if decide (l = (CallSystem t, Status t)) then 1 else 0))%Z) ∧
  dfgetTasksRegisterCount (dtm_metrics (dtm w')) =
  dfgetTasksRegisterCount (dtm_metrics (dtm w)).
Proof.
  intros Hget Hp HS HU.
  rewrite (UpdateStatus_Ok _ _ _ status _ _ Hget Hp HS) in HU.
  injection HU as <-. simpl. split; [|done]. intros l.
  rewrite vecValue_vecInc_decide, vecValue_vecDec_decide. lia.
Qed.

Lemma UpdateStatus_gauge_witness :
  let w := {| heap := {[ 1%positive := mkTask "c1" "p1" "t" "WAITING" ]};
              dtm := {| cfg := cfg0;
                        dfgetTaskStore := {[ "c1@t" := 1%positive ]};
                        ptoc := {[ "p1@t" := "c1" ]};
                        dtm_metrics :=
                          {| dfgetTasks := {[ ("sys", "WAITING") := 1%Z ]};
                             dfgetTasksRegisterCount := {[ "sys" := 1%Z ]};
                             dfgetTasksFailCount := ∅ |} |} |} in
  ∃ w', UpdateStatus "c1" "t" "RUNNING" w = Some (Ok tt, w') ∧
  (∀ l, vecValue (dfgetTasks (dtm_metrics (dtm w'))) l =
        (vecValue (dfgetTasks (dtm_metrics (dtm w))) l
         + (if decide (l = ("sys", "RUNNING")) then 1 else 0)
         - (if decide (l = ("sys", "WAITING")) then 1 else 0))%Z) ∧
  dfgetTasksRegisterCount (dtm_metrics (dtm w')) =
  dfgetTasksRegisterCount (dtm_metrics (dtm w)).
Proof.
  intros w. eexists. split; [vm_compute; reflexivity|].
  apply (UpdateStatus_gauge w _ "c1" "t" "RUNNING" 1
           (mkTask "c1" "p1" "t" "WAITING"));
    [vm_compute; reflexivity|vm_compute; reflexivity|done|
     vm_compute; reflexivity].
Defined.

(** X5: a successful [UpdateStatus] increments the failure counter of the
    record's call system exactly when the record was not in the status
    SUCCESS and the new status is FAILED (also when the record was
    already FAILED); no other call system's counter moves. *)
Theorem UpdateStatus_fail_count (w w' : World)
    (clientID taskID status : string) (dfgetTask : loc) (t : DfGetTask) :
  Get (dtm w) clientID taskID = Ok dfgetTask →
  heap w !! dfgetTask = Some t →
  UpdateStatus clientID taskID status w = Some (Ok tt, w') →
  ∀ callSystem,
    vecValue (dfgetTasksFailCount (dtm_metrics (dtm w'))) callSystem =
    (vecValue (dfgetTasksFailCount (dtm_metrics (dtm w))) callSystem
     + (if decide (callSystem = CallSystem t ∧
                   Status t ≠ DfGetTaskStatusSUCCESS ∧
                   status = DfGetTaskStatusFAILED)
        then 1 else 0))%Z.
Proof.
  intros Hget Hp HU cs.
  destruct (decide (Status t = DfGetTaskStatusSUCCESS)) as [HS|HS].
  - unfold UpdateStatus in HU. cbv zeta in HU. unfold Get in Hget.
    rewrite Hget, Hp, HS in HU. simpl in HU. rewrite HS in HU.
    simpl in HU. injection HU as <-. simpl.
    rewrite decide_False by (intros (_ & ? & _); done). lia.
  - rewrite (UpdateStatus_Ok _ _ _ status _ _ Hget Hp HS) in HU.
    injection HU as <-. simpl.
    destruct (String.eqb_spec status DfGetTaskStatusFAILED) as [->|HF].
    + rewrite vecValue_vecInc_decide.
      destruct (decide (cs = CallSystem t)) as [->|Hcs].
      * by rewrite decide_True.
      * rewrite decide_False by (intros (? & _); done). done.
    + rewrite decide_False by (intros (_ & _ & ?); done). lia.
Qed.

Lemma UpdateStatus_fail_count_witness :
  let w := {| heap := {[ 1%positive := mkTask "c1" "p1" "t" "FAILED" ]};
              dtm := {| cfg := cfg0;
                        dfgetTaskStore := {[ "c1@t" := 1%positive ]};
                        ptoc := {[ "p1@t" := "c1" ]};
                        dtm_metrics := newMetrics |} |} in
  ∃ w', UpdateStatus "c1" "t" "FAILED" w = Some (Ok tt, w') ∧
  ∀ callSystem,
    vecValue (dfgetTasksFailCount (dtm_metrics (dtm w'))) callSystem =
    (vecValue (dfgetTasksFailCount (dtm_metrics (dtm w))) callSystem
     + (if decide (callSystem = "sys" ∧
                   "FAILED" ≠ DfGetTaskStatusSUCCESS ∧
                   "FAILED" = DfGetTaskStatusFAILED)
        then 1 else 0))%Z.
Proof.
  intros w. eexists. split; [vm_compute; reflexivity|].
  apply (UpdateStatus_fail_count w _ "c1" "t" "FAILED" 1
           (mkTask "c1" "p1" "t" "FAILED")); vm_compute; reflexivity.
Defined.



(** ** Add and Delete together *)

Section add_delete_facts.
Implicit Types (w : World) (t : DfGetTask).

Lemma defaultStatus_idemp t : defaultStatus (defaultStatus t) = defaultStatus t.
Proof.
unfold defaultStatus. destruct (IsEmptyStr (Status t)) eqn:HS; [done|].
by rewrite HS.
Qed.

Lemma acceptable_defaultStatus t : acceptable t → acceptable (defaultStatus t).
Proof.
unfold acceptable.
by destruct (defaultStatus_ids t) as (-> & _ & -> & -> & ->).
Qed.

(** [Get] just after [Add]. *)
Lemma getDfgetTask_after_Add w dfgetTask t c ms pt :
CID t ≠ "" → TaskID t ≠ "" →
getDfgetTask
  {| cfg := c;
     dfgetTaskStore :=
       <[CID t +:+ keyJoinChar +:+ TaskID t := dfgetTask]>
         (dfgetTaskStore (dtm w));
     ptoc := pt; dtm_metrics := ms |} (CID t) (TaskID t) = Ok dfgetTask.
Proof.
intros HC HT. rewrite getDfgetTask_lookup by done. simpl.
by rewrite lookup_insert_eq.
Qed.
End add_delete_facts.

(** X7: [Add] of an acceptable record whose two keys are free, followed by
    [Delete] with the record's client and task identities, succeeds twice
    and leaves the primary store and the peer index exactly as they were
    before the [Add]; the record itself stays in the caller's hands, with
    its status defaulted. *)
Theorem Add_then_Delete_stores (w : World) (dfgetTask : loc) (t : DfGetTask) :
  heap w !! dfgetTask = Some t →
  acceptable t →
  dfgetTaskStore (dtm w) !! (CID t +:+ keyJoinChar +:+ TaskID t) = None →
  ptoc (dtm w) !! peerKeyOf t = None →
  ∃ w1 w2,
    Add dfgetTask w = Some (Ok tt, w1) ∧
    Delete (CID t) (TaskID t) w1 = Some (Ok tt, w2) ∧
    dfgetTaskStore (dtm w2) = dfgetTaskStore (dtm w) ∧
    ptoc (dtm w2) = ptoc (dtm w) ∧
    heap w2 = <[dfgetTask := defaultStatus t]> (heap w).
Proof.
  intros Hp (HPath & HPeer & HC & HT) Hstore Hptoc. do 2 eexists.
  split; [by apply Add_Ok|]. split.
  - apply (Delete_Ok _ _ _ dfgetTask (defaultStatus t)).
    + by apply getDfgetTask_after_Add.
    + simpl. by rewrite lookup_insert_eq.
  - simpl. rewrite peerKeyOf_defaultStatus.
    by rewrite !delete_insert_id.
Qed.

Lemma Add_then_Delete_stores_witness :
  let w := initWorld cfg0 {[ 1%positive := mkTask "c1" "p1" "t" "" ]} in
  ∃ w1 w2,
    Add 1 w = Some (Ok tt, w1) ∧
    Delete "c1" "t" w1 = Some (Ok tt, w2) ∧
    dfgetTaskStore (dtm w2) = dfgetTaskStore (dtm w) ∧
    ptoc (dtm w2) = ptoc (dtm w) ∧
    heap w2 = <[1%positive := mkTask "c1" "p1" "t" "WAITING"]> (heap w).
Proof.
  intros w.
  apply (Add_then_Delete_stores w 1 (mkTask "c1" "p1" "t" ""));
    [reflexivity|by repeat split|reflexivity|reflexivity].
Defined.

(** X8: the exemptions of [Add] and [Delete] differ.  After [Add] of an
    acceptable record and [Delete] of it, every gauge label is back at its
    value, except that the label of the record (call system, initial
    status) is one higher when the client identity is the supernode's and
    the peer identity is not: [Add] counts such a record, [Delete] does
    not. *)
Theorem Add_then_Delete_gauge (w : World) (dfgetTask : loc) (t : DfGetTask) :
  heap w !! dfgetTask = Some t →
  acceptable t →
  ∃ w1 w2,
    Add dfgetTask w = Some (Ok tt, w1) ∧
    Delete (CID t) (TaskID t) w1 = Some (Ok tt, w2) ∧
    ∀ l, vecValue (dfgetTasks (dtm_metrics (dtm w2))) l =
         (vecValue (dfgetTasks (dtm_metrics (dtm w))) l
          + (if decide (l = (CallSystem t, Status (defaultStatus t)) ∧
                        IsSuperCID (cfg (dtm w)) (CID t) = true ∧
                        IsSuperPID (cfg (dtm w)) (PeerID t) = false)
             then 1 else 0))%Z.
Proof.
  intros Hp (HPath & HPeer & HC & HT). do 2 eexists.
  split; [by apply Add_Ok|]. split.
  - apply (Delete_Ok _ _ _ dfgetTask (defaultStatus t)).
    + by apply getDfgetTask_after_Add.
    + simpl. by rewrite lookup_insert_eq.
  - intros l. simpl. unfold deleteMetrics, addMetrics.
    destruct (defaultStatus_ids t) as (-> & -> & _ & -> & _).
    destruct (IsSuperPID _ _) eqn:HPid, (IsSuperCID _ _) eqn:HCid; simpl.
    + rewrite decide_False by (intros (_ & _ & ?); done). lia.
    + rewrite vecValue_vecDec_decide, vecValue_vecInc_decide.
      rewrite (decide_False (P := _ ∧ _)) by (intros (_ & ? & _); done).
      lia.
    + rewrite vecValue_vecInc_decide.
      destruct (decide (l = _)) as [->|Hl].
      * by rewrite decide_True.
      * rewrite decide_False by (intros (? & _); done). done.
    + rewrite vecValue_vecDec_decide, vecValue_vecInc_decide.
      rewrite (decide_False (P := _ ∧ _)) by (intros (_ & ? & _); done).
      lia.
Qed.

Lemma Add_then_Delete_gauge_witness :
  let w := initWorld cfg0
             {[ 1%positive := mkTask "cdnnode:1" "p1" "t" "" ]} in
  ∃ w1 w2,
    Add 1 w = Some (Ok tt, w1) ∧
    Delete "cdnnode:1" "t" w1 = Some (Ok tt, w2) ∧
    ∀ l, vecValue (dfgetTasks (dtm_metrics (dtm w2))) l =
         (vecValue (dfgetTasks (dtm_metrics (dtm w))) l
          + (if decide (l = ("sys", "WAITING") ∧
                        IsSuperCID cfg0 "cdnnode:1" = true ∧
                        IsSuperPID cfg0 "p1" = false)
             then 1 else 0))%Z.
Proof.
  intros w.
  apply (Add_then_Delete_gauge w 1 (mkTask "cdnnode:1" "p1" "t" ""));
    [reflexivity|by repeat split].
Defined.

(** X9: a successful [Add] touches one key of each store and one record:
    every other key of the primary store, every other key of the peer
    index and every other record are as they were; the record added keeps
    all its fields but an empty status, which becomes WAITING; and the
    failure counter is not touched. *)
Theorem Add_frame (w w' : World) (dfgetTask : loc) (t : DfGetTask) :
  heap w !! dfgetTask = Some t →
  Add dfgetTask w = Some (Ok tt, w') →
  (∀ k, k ≠ CID t +:+ keyJoinChar +:+ TaskID t →
        dfgetTaskStore (dtm w') !! k = dfgetTaskStore (dtm w) !! k) ∧
  (∀ pk, pk ≠ peerKeyOf t → ptoc (dtm w') !! pk = ptoc (dtm w) !! pk) ∧
  (∀ q, q ≠ dfgetTask → heap w' !! q = heap w !! q) ∧
  heap w' !! dfgetTask =
    Some (if String.eqb (Status t) "" then setStatus DfGetTaskStatusWAITING t
          else t) ∧
  cfg (dtm w') = cfg (dtm w) ∧
  dfgetTasksFailCount (dtm_metrics (dtm w')) =
  dfgetTasksFailCount (dtm_metrics (dtm w)).
Proof.
  intros Hp HAdd.
  destruct (Add_Ok_inv _ _ _ HAdd) as (t' & Hp' & HPath & HPeer & HC & HT).
  rewrite Hp in Hp'. injection Hp' as <-.
  rewrite (Add_Ok _ _ _ Hp HPath HPeer HC HT) in HAdd.
  injection HAdd as <-. simpl.
  split; [|split; [|split; [|split; [|split]]]].
  - intros k Hk. by rewrite lookup_insert_ne.
  - intros pk Hpk. by rewrite lookup_insert_ne.
  - intros q Hq. by rewrite lookup_insert_ne.
  - by rewrite lookup_insert_eq.
  - done.
  - unfold addMetrics. by destruct (_ || _).
Qed.

Lemma Add_frame_witness :
  let w := {| heap := {[ 1%positive := mkTask "c1" "p1" "t" "WAITING";
                         2%positive := mkTask "c2" "p2" "t" "" ]};
              dtm := {| cfg := cfg0;
                        dfgetTaskStore := {[ "c1@t" := 1%positive ]};
                        ptoc := {[ "p1@t" := "c1" ]};
                        dtm_metrics := newMetrics |} |} in
  ∃ w', Add 2 w = Some (Ok tt, w') ∧
  (∀ k, k ≠ "c2" +:+ keyJoinChar +:+ "t" →
        dfgetTaskStore (dtm w') !! k = dfgetTaskStore (dtm w) !! k) ∧
  (∀ pk, pk ≠ peerKeyOf (mkTask "c2" "p2" "t" "") →
         ptoc (dtm w') !! pk = ptoc (dtm w) !! pk) ∧
  (∀ q, q ≠ 2%positive → heap w' !! q = heap w !! q) ∧
  heap w' !! 2%positive = Some (mkTask "c2" "p2" "t" "WAITING") ∧
  cfg (dtm w') = cfg (dtm w) ∧
  dfgetTasksFailCount (dtm_metrics (dtm w')) =
  dfgetTasksFailCount (dtm_metrics (dtm w)).
Proof.
  intros w. eexists. split; [vm_compute; reflexivity|].
  apply (Add_frame w _ 2 (mkTask "c2" "p2" "t" ""));
    vm_compute; reflexivity.
Defined.

(** X10: a successful [Delete] removes one key of each store and nothing
    else: the heap is as it was (the record is neither changed nor
    released), every other key of the primary store and of the peer index
    is as it was, and neither counter is touched. *)
Theorem Delete_frame (w w' : World) (clientID taskID : string)
    (dfgetTask : loc) (t : DfGetTask) :
  Get (dtm w) clientID taskID = Ok dfgetTask →
  heap w !! dfgetTask = Some t →
  Delete clientID taskID w = Some (Ok tt, w') →
  heap w' = heap w ∧
  (∀ k, k ≠ clientID +:+ keyJoinChar +:+ taskID →
        dfgetTaskStore (dtm w') !! k = dfgetTaskStore (dtm w) !! k) ∧
  (∀ pk, pk ≠ peerKeyOf t → ptoc (dtm w') !! pk = ptoc (dtm w) !! pk) ∧
  cfg (dtm w') = cfg (dtm w) ∧
  dfgetTasksRegisterCount (dtm_metrics (dtm w')) =
  dfgetTasksRegisterCount (dtm_metrics (dtm w)) ∧
  dfgetTasksFailCount (dtm_metrics (dtm w')) =
  dfgetTasksFailCount (dtm_metrics (dtm w)).
Proof.
  intros Hget Hp HDel.
  rewrite (Delete_Ok _ _ _ _ _ Hget Hp) in HDel. injection HDel as <-.
  simpl. split; [|split; [|split; [|split; [|split]]]].
  - done.
  - intros k Hk. by rewrite lookup_delete_ne.
  - intros pk Hpk. by rewrite lookup_delete_ne.
  - done.
  - unfold deleteMetrics. by destruct (negb _).
  - unfold deleteMetrics. by destruct (negb _).
Qed.

Lemma Delete_frame_witness :
  let w := {| heap := {[ 1%positive := mkTask "c1" "p1" "t" "WAITING";
                         2%positive := mkTask "c2" "p2" "t" "RUNNING" ]};
              dtm := {| cfg := cfg0;
                        dfgetTaskStore := {[ "c1@t" := 1%positive;
                                             "c2@t" := 2%positive ]};
                        ptoc := {[ "p1@t" := "c1"; "p2@t" := "c2" ]};
                        dtm_metrics := newMetrics |} |} in
  ∃ w', Delete "c2" "t" w = Some (Ok tt, w') ∧
  heap w' = heap w ∧
  (∀ k, k ≠ "c2" +:+ keyJoinChar +:+ "t" →
        dfgetTaskStore (dtm w') !! k = dfgetTaskStore (dtm w) !! k) ∧
  (∀ pk, pk ≠ peerKeyOf (mkTask "c2" "p2" "t" "RUNNING") →
         ptoc (dtm w') !! pk = ptoc (dtm w) !! pk) ∧
  cfg (dtm w') = cfg (dtm w) ∧
  dfgetTasksRegisterCount (dtm_metrics (dtm w')) =
  dfgetTasksRegisterCount (dtm_metrics (dtm w)) ∧
  dfgetTasksFailCount (dtm_metrics (dtm w')) =
  dfgetTasksFailCount (dtm_metrics (dtm w)).
Proof.
  intros w. eexists. split; [vm_compute; reflexivity|].
  apply (Delete_frame w _ "c2" "t" 2 (mkTask "c2" "p2" "t" "RUNNING"));
    vm_compute; reflexivity.
Defined.

(** X11: [Add] does not detect a registration that is already there.  The
    second [Add] of the same acceptable record succeeds and leaves the
    heap, the primary store and the peer index as the first left them, but
    counts again: unless both identities are the supernode's, the gauge of
    the record's label and the registration counter of its call system are
    two higher than before the first [Add]. *)
Theorem Add_twice (w : World) (dfgetTask : loc) (t : DfGetTask) :
  heap w !! dfgetTask = Some t →
  acceptable t →
  ∃ w1 w2,
    Add dfgetTask w = Some (Ok tt, w1) ∧
    Add dfgetTask w1 = Some (Ok tt, w2) ∧
    heap w2 = heap w1 ∧
    dfgetTaskStore (dtm w2) = dfgetTaskStore (dtm w1) ∧
    ptoc (dtm w2) = ptoc (dtm w1) ∧
    (¬ (IsSuperPID (cfg (dtm w)) (PeerID t) = true ∧
        IsSuperCID (cfg (dtm w)) (CID t) = true) →
     vecValue (dfgetTasks (dtm_metrics (dtm w2)))
       (CallSystem t, Status (defaultStatus t)) =
     (vecValue (dfgetTasks (dtm_metrics (dtm w)))
        (CallSystem t, Status (defaultStatus t)) + 2)%Z ∧
     vecValue (dfgetTasksRegisterCount (dtm_metrics (dtm w2)))
       (CallSystem t) =
     (vecValue (dfgetTasksRegisterCount (dtm_metrics (dtm w)))
        (CallSystem t) + 2)%Z).
Proof.
  intros Hp Hacc.
  pose proof (acceptable_defaultStatus _ Hacc) as (HPath' & HPeer' & HC' & HT').
  destruct Hacc as (HPath & HPeer & HC & HT). do 2 eexists.
  split; [by apply Add_Ok|]. split.
  { apply (Add_Ok _ _ (defaultStatus t)); [|done..].
    simpl. by rewrite lookup_insert_eq. }
  simpl. rewrite defaultStatus_idemp, peerKeyOf_defaultStatus.
  destruct (defaultStatus_ids t) as (HCe & HSe & _ & HPe & HTe).
  rewrite HCe, HTe. rewrite !insert_insert_eq.
  split; [done|]. split; [done|]. split; [done|]. intros Hres. split.
  - unfold addMetrics. rewrite HCe, HPe, HSe.
    destruct (IsSuperPID _ _), (IsSuperCID _ _); simpl;
      rewrite ?vecValue_vecInc; lia.
  - unfold addMetrics. rewrite HCe, HPe, HSe.
    destruct (IsSuperPID _ _), (IsSuperCID _ _); simpl;
      rewrite ?vecValue_vecInc; lia.
Qed.

Lemma Add_twice_witness :
  let w := initWorld cfg0 {[ 1%positive := mkTask "c1" "p1" "t" "" ]} in
  ∃ w1 w2,
    Add 1 w = Some (Ok tt, w1) ∧
    Add 1 w1 = Some (Ok tt, w2) ∧
    heap w2 = heap w1 ∧
    dfgetTaskStore (dtm w2) = dfgetTaskStore (dtm w1) ∧
    ptoc (dtm w2) = ptoc (dtm w1) ∧
    (¬ (IsSuperPID cfg0 "p1" = true ∧ IsSuperCID cfg0 "c1" = true) →
     vecValue (dfgetTasks (dtm_metrics (dtm w2))) ("sys", "WAITING") =
     (vecValue (dfgetTasks (dtm_metrics (dtm w))) ("sys", "WAITING") + 2)%Z ∧
     vecValue (dfgetTasksRegisterCount (dtm_metrics (dtm w2))) "sys" =
     (vecValue (dfgetTasksRegisterCount (dtm_metrics (dtm w))) "sys" + 2)%Z).
Proof.
  intros w.
  apply (Add_twice w 1 (mkTask "c1" "p1" "t" ""));
    [reflexivity|by repeat split].
Defined.

Section missing_record.
Implicit Types (w : World).

(** [Delete] and [UpdateStatus] on a key the primary store does not hold. *)
Lemma Delete_missing w clientID taskID :
clientID ≠ "" → taskID ≠ "" →
dfgetTaskStore (dtm w) !! (clientID +:+ keyJoinChar +:+ taskID) = None →
∃ e, Delete clientID taskID w = Some (Err e, w) ∧
     cause e = ErrDataNotFound.
Proof.
intros Hc Ht Hnone. unfold Delete. cbv zeta.
rewrite (generateKey_Ok _ _ Hc Ht), (getDfgetTask_lookup _ _ _ Hc Ht), Hnone.
by eexists.
Qed.

Lemma UpdateStatus_missing w clientID taskID status :
clientID ≠ "" → taskID ≠ "" →
dfgetTaskStore (dtm w) !! (clientID +:+ keyJoinChar +:+ taskID) = None →
∃ e, UpdateStatus clientID taskID status w = Some (Err e, w) ∧
     cause e = ErrDataNotFound.
Proof.
intros Hc Ht Hnone. unfold UpdateStatus. cbv zeta.
rewrite (getDfgetTask_lookup _ _ _ Hc Ht), Hnone. by eexists.
Qed.
End missing_record.

(** X12: [Delete] is not idempotent.  After the [Delete] of a record that
    was there, a second [Delete] and any [UpdateStatus] with the same
    identities fail with NotFound and return the state they were given. *)
Theorem Delete_then_again (w : World) (clientID taskID : string)
    (dfgetTask : loc) (t : DfGetTask) :
  Get (dtm w) clientID taskID = Ok dfgetTask →
  heap w !! dfgetTask = Some t →
  ∃ w', Delete clientID taskID w = Some (Ok tt, w') ∧
    (∃ e, Delete clientID taskID w' = Some (Err e, w') ∧
          cause e = ErrDataNotFound) ∧
    (∀ status, ∃ e,
       UpdateStatus clientID taskID status w' = Some (Err e, w') ∧
       cause e = ErrDataNotFound).
Proof.
  intros Hget Hp. eexists.
  split; [exact (Delete_Ok _ _ _ _ _ Hget Hp)|].
  apply getDfgetTask_Ok_inv in Hget as (key & Hkey & _).
  apply generateKey_Ok_inv in Hkey as (Hc & Ht & _). split.
  - apply Delete_missing; [done..|]. simpl. apply lookup_delete_eq.
  - intros status. apply UpdateStatus_missing; [done..|].
    simpl. apply lookup_delete_eq.
Qed.

Lemma Delete_then_again_witness :
  let w := {| heap := {[ 1%positive := mkTask "c1" "p1" "t" "RUNNING" ]};
              dtm := {| cfg := cfg0;
                        dfgetTaskStore := {[ "c1@t" := 1%positive ]};
                        ptoc := {[ "p1@t" := "c1" ]};
                        dtm_metrics := newMetrics |} |} in
  ∃ w', Delete "c1" "t" w = Some (Ok tt, w') ∧
    (∃ e, Delete "c1" "t" w' = Some (Err e, w') ∧
          cause e = ErrDataNotFound) ∧
    (∀ status, ∃ e,
       UpdateStatus "c1" "t" status w' = Some (Err e, w') ∧
       cause e = ErrDataNotFound).
Proof.
  intros w.
  apply (Delete_then_again w "c1" "t" 1 (mkTask "c1" "p1" "t" "RUNNING"));
    vm_compute; reflexivity.
Defined.

(** ** Keys are unambiguous for task identities without the join character *)

(** X13: two pairs of identities whose task identities hold no join
    character have the same key only if they are the same pair, for the
    keys of the primary store and for the keys of the peer index. *)
Theorem generateKey_inj (cID cID' taskID taskID' key : string) :
  freeOfJoinChar taskID = true → freeOfJoinChar taskID' = true →
  (generateKey cID taskID = Ok key → generateKey cID' taskID' = Ok key →
   cID = cID' ∧ taskID = taskID') ∧
  (generatePeerKey cID taskID = generatePeerKey cID' taskID' →
   cID = cID' ∧ taskID = taskID').
Proof.
  intros Hf Hf'.
  assert (generatePeerKey cID taskID = generatePeerKey cID' taskID' →
          cID = cID' ∧ taskID = taskID') as Hpeer.
  { intros Heq.
    assert (taskID = taskID') as <-.
    { pose proof (lastSegment_generatePeerKey cID _ Hf) as H1.
      pose proof (lastSegment_generatePeerKey cID' _ Hf') as H2.
      rewrite Heq in H1. congruence. }
    split; [|done]. by apply generatePeerKey_inj_peer in Heq. }
  split; [|done].
  intros (_ & _ & ->)%generateKey_Ok_inv (_ & _ & Heq)%generateKey_Ok_inv.
  by apply Hpeer.
Qed.

Lemma generateKey_inj_witness :
  (generateKey "a@b" "c" = Ok "a@b@c" → generateKey "a@b" "c" = Ok "a@b@c" →
   "a@b" = "a@b" ∧ "c" = "c") ∧
  (generatePeerKey "a@b" "c" = generatePeerKey "a@b" "c" →
   "a@b" = "a@b" ∧ "c" = "c").
Proof.
  apply (generateKey_inj "a@b" "a@b" "c" "c" "a@b@c"); reflexivity.
Defined.

(** ** What every sequence of operations keeps *)

Section always_facts.
Implicit Types (w : World) (t x : DfGetTask) (r : result unit).

Lemma storeKeyed_heap_update w p t x :
storeKeyed w → heap w !! p = Some t → sameIds x t →
storeKeyed {| heap := <[p := x]> (heap w); dtm := dtm w |}.
Proof.
intros HK Hp (HC & _ & HT) k q Hk. simpl in Hk. simpl.
destruct (HK _ _ Hk) as (y & Hq & Hkey).
destruct (decide (p = q)) as [<-|Hne].
- rewrite lookup_insert_eq. exists x. split; [done|].
  rewrite Hp in Hq. injection Hq as <-. by rewrite HC, HT.
- rewrite lookup_insert_ne by done. by exists y.
Qed.

Lemma indexFromHeap_heap_update w p t x :
indexFromHeap w → heap w !! p = Some t → sameIds x t →
indexFromHeap {| heap := <[p := x]> (heap w); dtm := dtm w |}.
Proof.
intros HI Hp Hs pk c Hpk. simpl in Hpk.
destruct (HI _ _ Hpk) as (q & y & Hq & Hpky & HCy).
destruct (decide (p = q)) as [<-|Hne].
- exists p, x. simpl. rewrite lookup_insert_eq. split; [done|].
  rewrite Hp in Hq. injection Hq as <-.
  split; [by rewrite (sameIds_peerKeyOf _ _ Hs)|].
  by destruct Hs as (-> & _).
- exists q, y. simpl. by rewrite lookup_insert_ne.
Qed.

(** The two properties depend on the heap, the primary store and the peer
  index only. *)
Lemma keyed_ext w w' :
heap w' = heap w →
dfgetTaskStore (dtm w') = dfgetTaskStore (dtm w) →
ptoc (dtm w') = ptoc (dtm w) →
storeKeyed w ∧ indexFromHeap w → storeKeyed w' ∧ indexFromHeap w'.
Proof.
destruct w as [h [c s pt ms]], w' as [h' [c' s' pt' ms']]. simpl.
intros -> -> -> [HK HI]. split; [exact HK|exact HI].
Qed.

Lemma keyed_runOp o w r w' :
storeKeyed w ∧ indexFromHeap w → runOp o w = Some (r, w') →
storeKeyed w' ∧ indexFromHeap w'.
Proof.
intros [HK HI] Hop. destruct o as [p|c tid|c tid s]; simpl in Hop.
- destruct r as [[]|e]; [|by apply Add_Err_inv in Hop as ->].
  destruct (Add_Ok_inv _ _ _ Hop) as (t & Hp & HPath & HPeer & HC & HT).
  rewrite (Add_Ok _ _ _ Hp HPath HPeer HC HT) in Hop.
  injection Hop as <-.
  pose proof (sameIds_defaultStatus t) as Hs.
  pose proof (storeKeyed_heap_update _ _ _ _ HK Hp Hs) as HK1.
  pose proof (indexFromHeap_heap_update _ _ _ _ HI Hp Hs) as HI1.
  split.
  + intros k q Hk. simpl in Hk. simpl.
    destruct (decide (CID t +:+ keyJoinChar +:+ TaskID t = k)) as [<-|Hne].
    * rewrite lookup_insert_eq in Hk. injection Hk as <-.
      rewrite lookup_insert_eq. exists (defaultStatus t). split; [done|].
      destruct Hs as (-> & _ & ->). by apply generateKey_Ok.
    * rewrite lookup_insert_ne in Hk by done. by apply HK1.
  + intros pk c Hpk. simpl in Hpk.
    destruct (decide (peerKeyOf t = pk)) as [<-|Hne].
    * rewrite lookup_insert_eq in Hpk. injection Hpk as <-.
      exists p, (defaultStatus t). simpl. rewrite lookup_insert_eq.
      split; [done|]. split; [by apply sameIds_peerKeyOf|by destruct Hs].
    * rewrite lookup_insert_ne in Hpk by done. by apply HI1.
- destruct r as [[]|e]; [|by apply Delete_Err_inv in Hop as ->].
  destruct (Delete_Ok_inv _ _ _ _ Hop) as (p & t & Hget & Hp).
  rewrite (Delete_Ok _ _ _ _ _ Hget Hp) in Hop. injection Hop as <-.
  split.
  + intros k q Hk. simpl in Hk. simpl.
    apply lookup_delete_Some in Hk as [_ Hk]. by apply HK.
  + intros pk c' Hpk. simpl in Hpk.
    apply lookup_delete_Some in Hpk as [_ Hpk]. by apply HI.
- destruct r as [[]|e]; [|by apply UpdateStatus_Err_inv in Hop as ->].
  destruct (UpdateStatus_Ok_inv _ _ _ _ _ Hop)
    as (p & t & Hget & Hp & Hcfg & Hstore & Hptoc & Hheap).
  assert (sameIds (if String.eqb (Status t) DfGetTaskStatusSUCCESS
                   then t else setStatus s t) t) as Hs
    by (by destruct (String.eqb (Status t) _)).
  apply (keyed_ext
           {| heap := <[p := if String.eqb (Status t) DfGetTaskStatusSUCCESS
                             then t else setStatus s t]> (heap w);
              dtm := dtm w |}); [exact Hheap|exact Hstore|exact Hptoc|].
  split.
  + by apply (storeKeyed_heap_update w p t).
  + by apply (indexFromHeap_heap_update w p t).
Qed.

Lemma keyed_runOps ops w w' :
storeKeyed w ∧ indexFromHeap w → runOps ops w = Some w' →
storeKeyed w' ∧ indexFromHeap w'.
Proof.
revert w. induction ops as [|o ops IH]; intros w HK Hrun.
- simpl in Hrun. by injection Hrun as <-.
- simpl in Hrun. destruct (runOp o w) as [[r w1]|] eqn:Hop; [|done].
  apply (IH w1); [|done]. by apply (keyed_runOp o w r).
Qed.

Lemma keyed_init c h :
storeKeyed (initWorld c h) ∧ indexFromHeap (initWorld c h).
Proof.
split.
- intros k p Hk. destruct (lookup_empty_Some (M := gmap string) k p Hk).
- intros pk c' Hpk.
  destruct (lookup_empty_Some (M := gmap string) pk c' Hpk).
Qed.
End always_facts.

(** X14: from a fresh manager, after any sequence of Add, Delete and
    UpdateStatus (duplicate registrations included), a pointer that [Get]
    returns holds a record whose own client and task identities make the
    key that was asked for, and every client identity that
    [GetCIDByPeerIDAndTaskID] returns is that of a record of the heap with
    the peer key that was asked for. *)
Theorem lookups_return_keyed_records (c : Config) (h : gmap loc DfGetTask)
    (ops : list Op) (w : World) :
  runOps ops (initWorld c h) = Some w →
  (∀ clientID taskID p, Get (dtm w) clientID taskID = Ok p →
     ∃ t, heap w !! p = Some t ∧
          generateKey (CID t) (TaskID t) = generateKey clientID taskID) ∧
  (∀ peerID taskID cid,
     GetCIDByPeerIDAndTaskID (dtm w) peerID taskID = Ok cid →
     ∃ p t, heap w !! p = Some t ∧
            peerKeyOf t = generatePeerKey peerID taskID ∧ CID t = cid).
Proof.
  intros Hrun.
  destruct (keyed_runOps _ _ _ (keyed_init c h) Hrun) as [HK HI]. split.
  - intros clientID taskID p (key & Hkey & Hstore)%getDfgetTask_Ok_inv.
    destruct (HK _ _ Hstore) as (t & Hp & Hkey'). exists t.
    by rewrite Hkey, Hkey'.
  - intros peerID taskID cid. unfold GetCIDByPeerIDAndTaskID.
    unfold SyncMap.GetAsString.
    destruct (ptoc (dtm w) !! _) as [cid'|] eqn:Hpk; [|done].
    intros [= <-]. by apply HI.
Qed.

Lemma lookups_return_keyed_records_witness :
  ∃ w, runOps [OpAdd 1; OpAdd 2; OpDelete "c" "t"; OpAdd 1]
         (initWorld cfg0 {[ 1%positive := mkTask "c" "p1" "t" "";
                            2%positive := mkTask "c" "p2" "t" "" ]})
       = Some w ∧
  (∀ clientID taskID p, Get (dtm w) clientID taskID = Ok p →
     ∃ t, heap w !! p = Some t ∧
          generateKey (CID t) (TaskID t) = generateKey clientID taskID) ∧
  (∀ peerID taskID cid,
     GetCIDByPeerIDAndTaskID (dtm w) peerID taskID = Ok cid →
     ∃ p t, heap w !! p = Some t ∧
            peerKeyOf t = generatePeerKey peerID taskID ∧ CID t = cid).
Proof.
  eexists. split; [vm_compute; reflexivity|].
  apply (lookups_return_keyed_records cfg0
           {[ 1%positive := mkTask "c" "p1" "t" "";
              2%positive := mkTask "c" "p2" "t" "" ]}
           [OpAdd 1; OpAdd 2; OpDelete "c" "t"; OpAdd 1]).
  vm_compute. reflexivity.
Defined.

(** X15: from a fresh manager, no sequence of operations panics, provided
    every pointer given to [Add] holds a record: the primary store never
    holds a pointer without a record, so [Delete] and [UpdateStatus] always
    return. *)
Theorem runOps_never_panics (c : Config) (h : gmap loc DfGetTask)
    (ops : list Op) :
  (∀ p, OpAdd p ∈ ops → is_Some (h !! p)) →
  is_Some (runOps ops (initWorld c h)).
Proof.
  assert (∀ ops w, storeKeyed w ∧ indexFromHeap w →
            (∀ p, OpAdd p ∈ ops → is_Some (heap w !! p)) →
            is_Some (runOps ops w)) as Hgen.
  { clear ops. intros ops. induction ops as [|o ops IH]; intros w HK Hin.
    - by eexists.
    - simpl. destruct (runOp_returns o w) as [[r w1] Hop].
      { by destruct HK. }
      { destruct o; [|done..]. apply Hin. left. }
      rewrite Hop. apply IH; [by apply (keyed_runOp o w r)|].
      intros p Hp. apply (runOp_allocated _ _ _ _ _ Hop), Hin. by right. }
  intros Hin. apply Hgen; [apply keyed_init|done].
Qed.

Lemma runOps_never_panics_witness :
  is_Some (runOps [OpAdd 1; OpUpdateStatus "c" "t" "FAILED"; OpAdd 2;
                   OpDelete "c" "t"; OpDelete "c" "t"]
             (initWorld cfg0 {[ 1%positive := mkTask "c" "p1" "t" "";
                                2%positive := mkTask "c" "p2" "t" "" ]})).
Proof.
  apply (runOps_never_panics cfg0
           {[ 1%positive := mkTask "c" "p1" "t" "";
              2%positive := mkTask "c" "p2" "t" "" ]}).
  intros p Hp. repeat (apply elem_of_cons in Hp as [Hp|Hp]).
  all: try discriminate Hp.
  - injection Hp as ->. vm_compute. by eexists.
  - injection Hp as ->. vm_compute. by eexists.
  - by apply elem_of_nil in Hp.
Defined.

Section counter_facts.
Implicit Types (w : World) (t : DfGetTask) (r : result unit).

Lemma vecValue_vecInc_le `{Countable L} (l l' : L) (v : gmap L Z) :
(vecValue v l' ≤ vecValue (vecInc l v) l')%Z.
Proof. rewrite vecValue_vecInc_decide. case_decide; lia. Qed.

(** [UpdateStatus] on a record in the status SUCCESS changes nothing. *)
Lemma UpdateStatus_SUCCESS_noop w clientID taskID status dfgetTask t :
getDfgetTask (dtm w) clientID taskID = Ok dfgetTask →
heap w !! dfgetTask = Some t →
Status t = DfGetTaskStatusSUCCESS →
UpdateStatus clientID taskID status w = Some (Ok tt, w).
Proof.
intros Hget Hp HS. unfold UpdateStatus. cbv zeta.
rewrite Hget, Hp, HS. simpl. rewrite HS. simpl.
rewrite (insert_id _ _ _ Hp).
by destruct w as [h [c st pt [g rc f]]].
Qed.

Lemma counters_runOp o w r w' callSystem :
runOp o w = Some (r, w') →
(vecValue (dfgetTasksRegisterCount (dtm_metrics (dtm w))) callSystem
 ≤ vecValue (dfgetTasksRegisterCount (dtm_metrics (dtm w'))) callSystem)%Z
∧
(vecValue (dfgetTasksFailCount (dtm_metrics (dtm w))) callSystem
 ≤ vecValue (dfgetTasksFailCount (dtm_metrics (dtm w'))) callSystem)%Z.
Proof.
intros Hop. destruct o as [p|c tid|c tid s]; simpl in Hop.
- destruct r as [[]|e]; [|by apply Add_Err_inv in Hop as ->].
  destruct (Add_Ok_inv _ _ _ Hop) as (t & Hp & HPath & HPeer & HC & HT).
  rewrite (Add_Ok _ _ _ Hp HPath HPeer HC HT) in Hop.
  injection Hop as <-. simpl. unfold addMetrics.
  destruct (_ || _); simpl; [|done].
  split; [apply vecValue_vecInc_le|done].
- destruct r as [[]|e]; [|by apply Delete_Err_inv in Hop as ->].
  destruct (Delete_Ok_inv _ _ _ _ Hop) as (p & t & Hget & Hp).
  rewrite (Delete_Ok _ _ _ _ _ Hget Hp) in Hop. injection Hop as <-.
  simpl. unfold deleteMetrics. by destruct (negb _).
- destruct r as [[]|e]; [|by apply UpdateStatus_Err_inv in Hop as ->].
  destruct (UpdateStatus_Ok_inv _ _ _ _ _ Hop)
    as (p & t & Hget & Hp & _).
  destruct (decide (Status t = DfGetTaskStatusSUCCESS)) as [HS|HS].
  + rewrite (UpdateStatus_SUCCESS_noop _ _ _ s _ _ Hget Hp HS) in Hop.
    by injection Hop as <-.
  + rewrite (UpdateStatus_Ok _ _ _ s _ _ Hget Hp HS) in Hop.
    injection Hop as <-. simpl. split; [done|].
    destruct (String.eqb s _); [apply vecValue_vecInc_le|done].
Qed.
End counter_facts.

(** X16: the two counters only go up: after any sequence of operations, the
    registration counter and the failure counter of every call system are
    at least what they were. *)
Theorem counters_never_decrease (ops : list Op) (w w' : World)
    (callSystem : string) :
  runOps ops w = Some w' →
  (vecValue (dfgetTasksRegisterCount (dtm_metrics (dtm w))) callSystem
   ≤ vecValue (dfgetTasksRegisterCount (dtm_metrics (dtm w'))) callSystem)%Z
  ∧
  (vecValue (dfgetTasksFailCount (dtm_metrics (dtm w))) callSystem
   ≤ vecValue (dfgetTasksFailCount (dtm_metrics (dtm w'))) callSystem)%Z.
Proof.
  revert w. induction ops as [|o ops IH]; intros w Hrun.
  - simpl in Hrun. by injection Hrun as <-.
  - simpl in Hrun. destruct (runOp o w) as [[r w1]|] eqn:Hop; [|done].
    destruct (counters_runOp _ _ _ _ callSystem Hop) as [H1 H2].
    destruct (IH _ Hrun) as [H3 H4]. lia.
Qed.

Lemma counters_never_decrease_witness :
  ∃ w', runOps [OpAdd 1; OpUpdateStatus "c1" "t" "FAILED"; OpDelete "c1" "t"]
          (initWorld cfg0 {[ 1%positive := mkTask "c1" "p1" "t" "" ]})
        = Some w' ∧
  (vecValue (∅ : gmap string Z) "sys"
   ≤ vecValue (dfgetTasksRegisterCount (dtm_metrics (dtm w'))) "sys")%Z ∧
  (vecValue (∅ : gmap string Z) "sys"
   ≤ vecValue (dfgetTasksFailCount (dtm_metrics (dtm w'))) "sys")%Z.
Proof.
  eexists. split; [vm_compute; reflexivity|].
  apply (counters_never_decrease
           [OpAdd 1; OpUpdateStatus "c1" "t" "FAILED"; OpDelete "c1" "t"]
           (initWorld cfg0 {[ 1%positive := mkTask "c1" "p1" "t" "" ]})
           _ "sys").
  vm_compute. reflexivity.
Defined.

(** ** What GetCIDsByTaskID returns *)

Section suffix_scan_result.
Implicit Types (m : Manager).

Lemma cidsOfEntry_filter m suffixString (l : list (string * string)) :
(∀ key cid, (key, cid) ∈ l → ptoc m !! key = Some cid) →
l ≫= cidsOfEntry m suffixString =
(filter (λ kv, HasSuffix kv.1 suffixString = true) l).*2.
Proof.
induction l as [|[key cid] l IH]; intros Hl; [done|].
rewrite bind_cons, IH by (intros ???; apply Hl; by right).
unfold cidsOfEntry at 1. simpl.
destruct (HasSuffix key suffixString) eqn:Hkey.
- rewrite filter_cons_True by done. rewrite (Hl key cid) by left. done.
- rewrite filter_cons_False; [done|]. simpl. by rewrite Hkey.
Qed.
End suffix_scan_result.

(** X17: [GetCIDsByTaskID] never fails, and for every order of visit of the
    peer index it returns, up to order, the values of exactly the entries
    whose key ends with the join character followed by the task identity,
    one per entry. *)
Theorem GetCIDsByTaskID_matching (m : Manager) (taskID : string)
    (order : list (string * string)) :
  rangeOrder (ptoc m) order →
  ∃ cids, GetCIDsByTaskID m taskID order = Ok cids ∧
    cids ≡ₚ (filter (λ kv, HasSuffix kv.1 (keyJoinChar +:+ taskID) = true)
               (map_to_list (ptoc m))).*2.
Proof.
  intros Horder. eexists. split; [reflexivity|].
  rewrite cidsRangeFunc_foldl, app_nil_l. unfold rangeOrder in Horder.
  rewrite Horder. rewrite cidsOfEntry_filter; [done|].
  intros key cid. apply elem_of_map_to_list.
Qed.

Lemma GetCIDsByTaskID_matching_witness :
  let m := {| cfg := cfg0; dfgetTaskStore := ∅;
              ptoc := {[ "p1@t" := "c1"; "p2@t" := "c2"; "p3@u" := "c3" ]};
              dtm_metrics := newMetrics |} in
  ∃ cids, GetCIDsByTaskID m "t" (map_to_list (ptoc m)) = Ok cids ∧
    cids ≡ₚ (filter (λ kv, HasSuffix kv.1 (keyJoinChar +:+ "t") = true)
               (map_to_list (ptoc m))).*2.
Proof.
  intros m. apply (GetCIDsByTaskID_matching m "t" (map_to_list (ptoc m))).
  unfold rangeOrder. reflexivity.
Defined.

Section suffix_decomposition.
Implicit Types a b s suf : string.

Lemma substring_split n s :
(n ≤ String.length s)%nat →
s = String.substring 0 n s +:+ String.substring n (String.length s - n) s.
Proof.
revert n. induction s as [|x s IH]; intros [|n] Hn; simpl in Hn.
- done.
- lia.
- simpl. by rewrite string_app_nil_l, substring_all.
- simpl. rewrite string_app_cons. f_equal. apply IH. lia.
Qed.

Lemma HasSuffix_inv s suf :
HasSuffix s suf = true → ∃ a, s = a +:+ suf.
Proof.
unfold HasSuffix. intros [Hlen Heq]%andb_true_iff.
apply Nat.leb_le in Hlen. apply String.eqb_eq in Heq.
exists (String.substring 0 (String.length s - String.length suf) s).
assert (String.length s - String.length suf ≤ String.length s)%nat as Hle
  by lia.
pose proof (substring_split _ _ Hle) as Hsplit.
replace (String.length s - (String.length s - String.length suf))%nat
  with (String.length suf) in Hsplit by lia.
by rewrite Heq in Hsplit.
Qed.

(** Two keys of the peer index with join-free task identities are equal
  only for the same identities. *)
Lemma generatePeerKey_inj_free a a' b b' :
freeOfJoinChar b = true → freeOfJoinChar b' = true →
generatePeerKey a b = generatePeerKey a' b' → a = a' ∧ b = b'.
Proof.
intros Hb Hb' Heq.
assert (b = b') as <-.
{ pose proof (lastSegment_generatePeerKey a _ Hb) as H1.
  pose proof (lastSegment_generatePeerKey a' _ Hb') as H2.
  rewrite Heq in H1. congruence. }
split; [|done]. by apply generatePeerKey_inj_peer in Heq.
Qed.

Lemma tasksFree_spec (w : World) p t :
tasksFree w = true → heap w !! p = Some t →
freeOfJoinChar (TaskID t) = true.
Proof.
unfold tasksFree. rewrite forallb_forall. intros Hall Hp.
apply (Hall (p, t)). apply list_elem_of_In. by apply elem_of_map_to_list.
Qed.
End suffix_decomposition.

(** X18: in a consistent state whose task identities hold no join
    character, [GetCIDsByTaskID] with a join-free task identity returns,
    for every order of visit, exactly the client identities of the live
    records of that task: nothing of another task, and no live record of
    the task is missed. *)
Theorem GetCIDsByTaskID_live_records (w : World) (taskID : string)
    (order : list (string * string)) :
  Consistent w → tasksFree w = true → freeOfJoinChar taskID = true →
  rangeOrder (ptoc (dtm w)) order →
  ∃ cids, GetCIDsByTaskID (dtm w) taskID order = Ok cids ∧
    ∀ cid, cid ∈ cids ↔
           ∃ k t, liveRecord w k t ∧ TaskID t = taskID ∧ CID t = cid.
Proof.
  intros [_ _ [HI HO]] Hfree HT Horder. eexists. split; [reflexivity|].
  intros cid. rewrite cidsRangeFunc_foldl, app_nil_l.
  unfold rangeOrder in Horder. rewrite Horder.
  rewrite cidsOfEntry_filter by (intros ??; apply elem_of_map_to_list).
  rewrite list_elem_of_fmap. split.
  - intros ([key cid'] & -> & [Hsuf Hin]%list_elem_of_filter).
    simpl in *. apply elem_of_map_to_list in Hin.
    destruct (HO _ _ Hin) as (k & t & Hlive & Hpk & HC).
    exists k, t. split; [done|]. split; [|done].
    destruct Hlive as (p & _ & Hp).
    pose proof (tasksFree_spec _ _ _ Hfree Hp) as Ht.
    apply HasSuffix_inv in Hsuf as [a Ha]. rewrite <- Hpk in Ha.
    by apply (generatePeerKey_inj_free _ a _ _ Ht HT) in Ha as [_ ?].
  - intros (k & t & Hlive & <- & <-).
    exists (peerKeyOf t, CID t). split; [done|].
    apply list_elem_of_filter. split.
    + apply generatePeerKey_HasSuffix.
    + apply elem_of_map_to_list. by apply (HI k).
Qed.

Lemma GetCIDsByTaskID_live_records_witness :
  ∃ w, runOps [OpAdd 1; OpAdd 2; OpAdd 3]
         (initWorld cfg0 {[ 1%positive := mkTask "c1" "p1" "t" "";
                            2%positive := mkTask "c2" "p2" "u" "";
                            3%positive := mkTask "c3" "p3" "t" "" ]})
       = Some w ∧
  ∃ cids, GetCIDsByTaskID (dtm w) "t" (map_to_list (ptoc (dtm w))) = Ok cids ∧
    ∀ cid, cid ∈ cids ↔
           ∃ k t, liveRecord w k t ∧ TaskID t = "t" ∧ CID t = cid.
Proof.
  eexists. split; [vm_compute; reflexivity|].
  apply GetCIDsByTaskID_live_records.
  - apply (Consistent_runOps [OpAdd 1; OpAdd 2; OpAdd 3]
             (initWorld cfg0 {[ 1%positive := mkTask "c1" "p1" "t" "";
                                2%positive := mkTask "c2" "p2" "u" "";
                                3%positive := mkTask "c3" "p3" "t" "" ]}));
      [apply Consistent_init|vm_compute; reflexivity..].
  - vm_compute. reflexivity.
  - reflexivity.
  - unfold rangeOrder. reflexivity.
Defined.

(** ** What GetCIDAndTaskIDsByPeerID returns for two records of a peer *)

(** X19: in a registry whose peer index has no entry for the peer [P], the
    [Add] of two acceptable records of peer [P] with different client
    identities and different, join-free task identities succeeds, and
    afterwards, for every order of visit, [GetCIDAndTaskIDsByPeerID]
    returns the map that binds each client identity to its task identity
    and nothing else. *)
Theorem GetCIDAndTaskIDsByPeerID_two_records (w0 : World) (p1 p2 : loc)
    (t1 t2 : DfGetTask) (P : string) :
  heap w0 !! p1 = Some t1 → heap w0 !! p2 = Some t2 →
  acceptable t1 → acceptable t2 →
  PeerID t1 = P → PeerID t2 = P →
  CID t1 ≠ CID t2 → TaskID t1 ≠ TaskID t2 →
  freeOfJoinChar (TaskID t1) = true → freeOfJoinChar (TaskID t2) = true →
  (∀ key, HasPrefix key (P +:+ keyJoinChar) = true →
     ptoc (dtm w0) !! key = None) →
  ∃ w, runOps [OpAdd p1; OpAdd p2] w0 = Some w ∧
    ∀ order, rangeOrder (ptoc (dtm w)) order →
      GetCIDAndTaskIDsByPeerID (dtm w) P order =
      Some (Ok {[ CID t1 := TaskID t1; CID t2 := TaskID t2 ]}).
Proof.
  intros Hp1 Hp2 (HP1 & HE1 & HC1 & HT1) (HP2 & HE2 & HC2 & HT2)
    HPe1 HPe2 HCne HTne Hf1 Hf2 Hfresh.
  assert (p1 ≠ p2) as Hp12 by congruence.
  assert (peerKeyOf t1 ≠ peerKeyOf t2) as Hk12.
  { unfold peerKeyOf. rewrite HPe1, HPe2.
    intros [_ ?]%generatePeerKey_inj_free; done. }
  assert (∀ t, PeerID t = P →
            HasPrefix (peerKeyOf t) (P +:+ keyJoinChar) = true) as Hpre.
  { intros t <-. unfold peerKeyOf, generatePeerKey.
    rewrite <- string_app_assoc. apply HasPrefix_app. }
  eexists. split.
  { simpl. rewrite (Add_Ok _ _ _ Hp1 HP1 HE1 HC1 HT1).
    rewrite (Add_Ok _ _ t2); [|simpl; by rewrite lookup_insert_ne|done..].
    reflexivity. }
  simpl. intros order Horder. unfold rangeOrder in Horder.
  set (m := {| cfg := _; dfgetTaskStore := _; ptoc := _;
               dtm_metrics := _ |}) in *.
  assert (∀ key cid, (key, cid) ∈ order ↔ ptoc m !! key = Some cid) as Hin.
  { intros key cid. rewrite Horder. apply elem_of_map_to_list. }
  destruct (cidTaskRangeFunc_foldl m (P +:+ keyJoinChar) order ∅)
    as (res & Hres & Hsound & _ & Hfound).
  { intros ??. apply Hin. }
  unfold GetCIDAndTaskIDsByPeerID. cbv zeta. rewrite Hres.
  do 2 f_equal. apply map_eq. intros cid.
  assert (∀ taskID, res !! cid = Some taskID →
            (cid = CID t1 ∧ taskID = TaskID t1) ∨
            (cid = CID t2 ∧ taskID = TaskID t2)) as Hcases.
  { intros taskID Hcid.
    destruct (Hsound _ _ Hcid) as [Hempty|(key & Hk & Hkpre & Hlast)];
      [by rewrite lookup_empty in Hempty|].
    apply Hin in Hk. subst m. simpl in Hk.
    apply lookup_insert_Some in Hk as [[<- <-]|[_ Hk]].
    { right. split; [done|].
      unfold peerKeyOf in Hlast.
      rewrite lastSegment_generatePeerKey in Hlast by done. congruence. }
    apply lookup_insert_Some in Hk as [[<- <-]|[_ Hk]].
    { left. split; [done|].
      unfold peerKeyOf in Hlast.
      rewrite lastSegment_generatePeerKey in Hlast by done. congruence. }
    by rewrite (Hfresh _ Hkpre) in Hk. }
  assert (is_Some (res !! CID t1)) as [x1 Hx1].
  { apply (Hfound (peerKeyOf t1)); [|by apply Hpre]. apply Hin. subst m.
    simpl. rewrite lookup_insert_ne by done. apply lookup_insert_eq. }
  assert (is_Some (res !! CID t2)) as [x2 Hx2].
  { apply (Hfound (peerKeyOf t2)); [|by apply Hpre]. apply Hin. subst m.
    simpl. apply lookup_insert_eq. }
  destruct (decide (cid = CID t1)) as [->|Hn1].
  { rewrite lookup_insert_eq, Hx1.
    destruct (Hcases _ Hx1) as [[_ ->]|[? _]]; done. }
  rewrite lookup_insert_ne by done.
  destruct (decide (cid = CID t2)) as [->|Hn2].
  { rewrite lookup_singleton_eq, Hx2.
    destruct (Hcases _ Hx2) as [[? _]|[_ ->]]; done. }
  rewrite lookup_singleton_ne by done.
  destruct (res !! cid) as [taskID|] eqn:Hcid; [|done].
  destruct (Hcases _ eq_refl) as [[? _]|[? _]]; done.
Qed.

Lemma GetCIDAndTaskIDsByPeerID_two_records_witness :
  let w0 := initWorld cfg0 {[ 1%positive := mkTask "c1" "p" "t1" "";
                              2%positive := mkTask "c2" "p" "t2" "" ]} in
  ∃ w, runOps [OpAdd 1; OpAdd 2] w0 = Some w ∧
    ∀ order, rangeOrder (ptoc (dtm w)) order →
      GetCIDAndTaskIDsByPeerID (dtm w) "p" order =
      Some (Ok {[ "c1" := "t1"; "c2" := "t2" ]}).
Proof.
  intros w0.
  apply (GetCIDAndTaskIDsByPeerID_two_records w0 1 2
           (mkTask "c1" "p" "t1" "") (mkTask "c2" "p" "t2" "") "p");
    try reflexivity; try done.
Defined.

(** ** The gauge over the life of a record *)

Section lifecycle_facts.
Implicit Types (w : World) (t : DfGetTask).


End lifecycle_facts.



(** ** The metrics rule of Delete *)

(** X21: a successful [Delete] lowers the gauge of the label of the record
    (call system, current status) by one if and only if the clientID it
    was given is not the supernode's; when it is, the metrics are as they
    were; and no other label of the gauge moves. *)
Theorem Delete_metrics (w w' : World) (clientID taskID : string)
    (dfgetTask : loc) (t : DfGetTask) :
  Get (dtm w) clientID taskID = Ok dfgetTask →
  heap w !! dfgetTask = Some t →
  Delete clientID taskID w = Some (Ok tt, w') →
  (vecValue (dfgetTasks (dtm_metrics (dtm w'))) (CallSystem t, Status t) =
   (vecValue (dfgetTasks (dtm_metrics (dtm w))) (CallSystem t, Status t)
    - 1)%Z
   ↔ IsSuperCID (cfg (dtm w)) clientID = false) ∧
  (IsSuperCID (cfg (dtm w)) clientID = true →
   dtm_metrics (dtm w') = dtm_metrics (dtm w)) ∧
  (∀ l, l ≠ (CallSystem t, Status t) →
     vecValue (dfgetTasks (dtm_metrics (dtm w'))) l =
     vecValue (dfgetTasks (dtm_metrics (dtm w))) l).
Proof.
  intros Hget Hp HDel.
  rewrite (Delete_Ok _ _ _ _ _ Hget Hp) in HDel. injection HDel as <-.
  simpl. unfold deleteMetrics.
  destruct (IsSuperCID _ _); simpl; (split; [split|split]); try done.
  - lia.
  - by rewrite vecValue_vecDec.
  - intros l Hl. by rewrite vecValue_vecDec_ne.
Qed.

Lemma Delete_metrics_witness :
  let w := {| heap := {[ 1%positive := mkTask "c1" "p1" "t" "RUNNING" ]};
              dtm := {| cfg := cfg0;
                        dfgetTaskStore := {[ "c1@t" := 1%positive ]};
                        ptoc := {[ "p1@t" := "c1" ]};
                        dtm_metrics :=
                          {| dfgetTasks := {[ ("sys", "RUNNING") := 1%Z ]};
                             dfgetTasksRegisterCount := {[ "sys" := 1%Z ]};
                             dfgetTasksFailCount := ∅ |} |} |} in
  ∃ w', Delete "c1" "t" w = Some (Ok tt, w') ∧
  (vecValue (dfgetTasks (dtm_metrics (dtm w'))) ("sys", "RUNNING") =
   (vecValue (dfgetTasks (dtm_metrics (dtm w))) ("sys", "RUNNING") - 1)%Z
   ↔ IsSuperCID (cfg (dtm w)) "c1" = false) ∧
  (IsSuperCID (cfg (dtm w)) "c1" = true →
   dtm_metrics (dtm w') = dtm_metrics (dtm w)) ∧
  (∀ l, l ≠ ("sys", "RUNNING") →
     vecValue (dfgetTasks (dtm_metrics (dtm w'))) l =
     vecValue (dfgetTasks (dtm_metrics (dtm w))) l).
Proof.
  intros w. eexists. split; [vm_compute; reflexivity|].
  apply (Delete_metrics w _ "c1" "t" 1 (mkTask "c1" "p1" "t" "RUNNING"));
    vm_compute; reflexivity.
Defined.

(** ** One index entry per live record *)

Section size_facts.
Implicit Types (w : World) (t : DfGetTask) (r : result unit).

Lemma size_runOp o w r w' :
Consistent w →
match o with OpAdd p => addCompatible w p = true | _ => True end →
size (dfgetTaskStore (dtm w)) = size (ptoc (dtm w)) →
runOp o w = Some (r, w') →
size (dfgetTaskStore (dtm w')) = size (ptoc (dtm w')).
Proof.
intros [HK HA [HI HO]] Ho Hsize Hop.
destruct o as [p|c tid|c tid s]; simpl in Hop.
- destruct r as [[]|e]; [|by apply Add_Err_inv in Hop as ->].
  destruct (Add_Ok_inv _ _ _ Hop) as (t & Hp & HPath & HPeer & HC & HT).
  rewrite (Add_Ok _ _ _ Hp HPath HPeer HC HT) in Hop.
  injection Hop as <-. simpl.
  pose proof (generateKey_Ok _ _ HC HT) as Hkey.
  pose proof (addCompatible_spec _ _ _ _ Ho Hp Hkey) as Hspec.
  rewrite !map_size_insert.
  destruct (dfgetTaskStore (dtm w) !! _) as [q|] eqn:Hq.
  + destruct (HK _ _ Hq) as (x & Hx & _).
    assert (liveRecord w (CID t +:+ keyJoinChar +:+ TaskID t) x) as Hlive
      by (by exists q).
    pose proof (HI _ _ Hlive) as Hidx.
    rewrite (proj1 (Hspec _ _ Hlive) eq_refl) in Hidx.
    by rewrite Hidx.
  + destruct (ptoc (dtm w) !! peerKeyOf t) as [c|] eqn:Hc; [|by f_equal].
    destruct (HO _ _ Hc) as (k & x & Hlive & Hpk & _).
    apply (Hspec _ _ Hlive) in Hpk as ->.
    destruct Hlive as (q & Hq' & _). congruence.
- destruct r as [[]|e]; [|by apply Delete_Err_inv in Hop as ->].
  destruct (Delete_Ok_inv _ _ _ _ Hop) as (p & t & Hget & Hp).
  rewrite (Delete_Ok _ _ _ _ _ Hget Hp) in Hop. injection Hop as <-.
  simpl. apply getDfgetTask_Ok_inv in Hget as (key & Hkey & Hstore).
  apply generateKey_Ok_inv in Hkey as (_ & _ & ->).
  rewrite !map_size_delete, Hstore.
  assert (liveRecord w (c +:+ keyJoinChar +:+ tid) t) as Hlive
    by (by exists p).
  rewrite (HI _ _ Hlive). simpl. by f_equal.
- destruct r as [[]|e]; [|by apply UpdateStatus_Err_inv in Hop as ->].
  destruct (UpdateStatus_Ok_inv _ _ _ _ _ Hop)
    as (p & t & _ & _ & _ & -> & -> & _).
  done.
Qed.
End size_facts.

(** X22: from a fresh manager, after every admissible sequence of
    operations the primary store and the peer index have the same number
    of entries. *)
Theorem stores_same_size (c : Config) (h : gmap loc DfGetTask)
    (ops : list Op) (w : World) :
  admissible ops (initWorld c h) = true →
  runOps ops (initWorld c h) = Some w →
  size (dfgetTaskStore (dtm w)) = size (ptoc (dtm w)).
Proof.
  assert (∀ ops w0 w, Consistent w0 →
            size (dfgetTaskStore (dtm w0)) = size (ptoc (dtm w0)) →
            admissible ops w0 = true → runOps ops w0 = Some w →
            size (dfgetTaskStore (dtm w)) = size (ptoc (dtm w))) as Hgen.
  { clear. intros ops. induction ops as [|o ops IH];
      intros w0 w HC Hsize Hadm Hrun.
    - simpl in Hrun. by injection Hrun as <-.
    - simpl in Hadm, Hrun. apply andb_true_iff in Hadm as [Ho Hadm].
      destruct (runOp o w0) as [[r w1]|] eqn:Hop; [|done].
      apply (IH w1); [| |done..].
      + destruct o as [p|cl t|cl t s]; simpl in Hop.
        * by apply (Consistent_Add _ _ _ _ HC Ho Hop).
        * by apply (Consistent_Delete _ _ _ _ _ HC Hop).
        * by apply (Consistent_UpdateStatus _ _ _ _ _ _ HC Hop).
      + apply (size_runOp o w0 r); [done| |done..]. by destruct o. }
  intros Hadm Hrun.
  apply (Hgen ops (initWorld c h)); [apply Consistent_init| |done..].
  simpl. by rewrite !map_size_empty.
Qed.

Lemma stores_same_size_witness :
  ∃ w, runOps [OpAdd 1; OpAdd 2; OpAdd 1; OpDelete "c2" "t"]
         (initWorld cfg0 {[ 1%positive := mkTask "c1" "p1" "t" "";
                            2%positive := mkTask "c2" "p2" "t" "" ]})
       = Some w ∧
       size (dfgetTaskStore (dtm w)) = size (ptoc (dtm w)).
Proof.
  eexists. split; [vm_compute; reflexivity|].
  apply (stores_same_size cfg0
           {[ 1%positive := mkTask "c1" "p1" "t" "";
              2%positive := mkTask "c2" "p2" "t" "" ]}
           [OpAdd 1; OpAdd 2; OpAdd 1; OpDelete "c2" "t"]);
    vm_compute; reflexivity.
Defined.

(** ** One binding per client identity in the scan of a peer *)

(** X23: the map of [GetCIDAndTaskIDsByPeerID] is keyed by client identity,
    so when several matching entries of the peer index hold the same client
    identity only one of them is reported: the one visited last.  For an
    order of visit [l1 ++ (key, cid) :: l2] in which [key] matches and no
    entry of [l2] with the value [cid] does, the result binds [cid] to the
    last segment of [key], whatever [l1] holds. *)
Theorem GetCIDAndTaskIDsByPeerID_last_visited (m : Manager)
    (peerID key cid : string) (l1 l2 : list (string * string)) :
  rangeOrder (ptoc m) (l1 ++ (key, cid) :: l2) →
  HasPrefix key (peerID +:+ keyJoinChar) = true →
  (∀ key', (key', cid) ∈ l2 →
     HasPrefix key' (peerID +:+ keyJoinChar) = false) →
  ∃ res, GetCIDAndTaskIDsByPeerID m peerID (l1 ++ (key, cid) :: l2)
         = Some (Ok res) ∧
         res !! cid = lastSegment key.
Proof.
  intros Horder Hpre Hl2.
  assert (∀ k c, (k, c) ∈ l1 ++ (key, cid) :: l2 → ptoc m !! k = Some c)
    as Hin.
  { intros k c. unfold rangeOrder in Horder. rewrite Horder.
    apply elem_of_map_to_list. }
  destruct (cidTaskRangeFunc_foldl m (peerID +:+ keyJoinChar) l1 ∅)
    as (res1 & Hres1 & _).
  { intros k c Hk. apply Hin, elem_of_app. by left. }
  destruct (cidTaskRangeFunc_entry m (peerID +:+ keyJoinChar) res1 key cid)
    as (taskID & Hlast & Hstep).
  { apply Hin, elem_of_app. right. left. }
  rewrite Hpre in Hstep.
  destruct (cidTaskRangeFunc_foldl m (peerID +:+ keyJoinChar) l2
              (<[cid := taskID]> res1))
    as (res & Hres & Hsound & Hkeep & _).
  { intros k c Hk. apply Hin, elem_of_app. right. by right. }
  exists res. unfold GetCIDAndTaskIDsByPeerID. cbv zeta.
  rewrite foldl_app, Hres1.
  change (foldl ?f ?a ((key, cid) :: l2)) with (foldl f (f a (key, cid)) l2).
  rewrite Hstep, Hres. split; [done|].
  rewrite Hlast.
  destruct (Hkeep cid) as [taskID' Hcid].
  { rewrite lookup_insert_eq. by eexists. }
  rewrite Hcid. f_equal.
  destruct (Hsound _ _ Hcid) as [Hacc|(key' & Hk' & Hpre' & _)].
  - rewrite lookup_insert_eq in Hacc. congruence.
  - rewrite (Hl2 _ Hk') in Hpre'. done.
Qed.

Lemma GetCIDAndTaskIDsByPeerID_last_visited_witness :
  let m := {| cfg := cfg0; dfgetTaskStore := ∅;
              ptoc := {[ "p@t1" := "c"; "p@t2" := "c"; "q@t3" := "c" ]};
              dtm_metrics := newMetrics |} in
  ∃ res, GetCIDAndTaskIDsByPeerID m "p"
           ([("p@t1", "c")] ++ ("p@t2", "c") :: [("q@t3", "c")])
         = Some (Ok res) ∧
         res !! "c" = lastSegment "p@t2".
Proof.
  intros m.
  apply (GetCIDAndTaskIDsByPeerID_last_visited m "p" "p@t2" "c"
           [("p@t1", "c")] [("q@t3", "c")]).
  - unfold rangeOrder. apply (bool_decide_unpack _). vm_compute. reflexivity.
  - vm_compute. reflexivity.
  - intros key' Hk. apply list_elem_of_singleton in Hk.
    injection Hk as ->. vm_compute. reflexivity.
Defined.
